(** * novel: DOM element factories

    A shallow embedding of [src/index.ts]: the element builder
    [createNativeDOMElement] and the factory generator
    [createNativeElementFunction], over an explicit store of JavaScript
    objects and a small model of the host document tree.  What the engine
    and the document decide (the string form of a number, of a function and
    of an element, the names a document accepts and how it stores them) is
    a parameter of the development, the classes [Host] and [Document]. *)

From Stdlib Require Import Ascii Floats.
From stdpp Require Import base option list gmap strings pretty.

Open Scope string_scope.
Open Scope list_scope.

(** ** JavaScript values

    Objects, arrays and elements are references: the library receives the
    caller's own object and (for the class-name merge) writes to it.
    A Number is an IEEE 754 double, Rocq's primitive [float]: every double,
    the two zeros, the infinities and NaN.  A function value is opaque and
    is never invoked by the library, only handed to the host as a listener;
    objects are plain data, so the methods the source looks up on a value
    ([split], [toString]) and the ones [JSON.stringify] and [String] use are
    the built-in ones. *)

Global Instance float_eq_dec : EqDecision float.
Proof.
  intros x y. destruct (Leibniz.eqb x y) eqn:E.
  - left. by apply Leibniz.eqb_spec.
  - right. intros Hxy. apply Leibniz.eqb_spec in Hxy. congruence.
Defined.

Abbreviation loc := nat.
Abbreviation node_id := nat.
Abbreviation fn := nat.

Inductive value :=
| VUndefined
| VNull
| VBoolean (b : bool)
| VNumber (x : float)
| VBigInt (n : Z)
| VString (s : string)
| VFunction (f : fn)
| VArray (l : loc)
| VObject (l : loc)
| VElement (n : node_id).
Arguments VNumber x%_float.

Global Instance value_eq_dec : EqDecision value.
Proof. solve_decision. Defined.

(** An object is the sequence of its own enumerable properties, in the order
    [Object.entries] lists them.  An array is stored the same way, its
    entries keyed by index, which is what [Object.entries] returns for it. *)
Abbreviation bag := (list (string * value)).

Fixpoint assoc_get {V : Type} (k : string) (b : list (string * V)) : option V :=
  match b with
  | [] => None
  | (k', v) :: b' => if decide (k' = k) then Some v else assoc_get k b'
  end.

(** Reading a property that is not there gives undefined. *)
Definition get_prop (k : string) (b : bag) : value :=
  default VUndefined (assoc_get k b).

(** Assignment keeps the position of a key that exists and appends a new
    one at the end. *)
Fixpoint assoc_set {V : Type} (k : string) (v : V) (b : list (string * V))
  : list (string * V) :=
  match b with
  | [] => [(k, v)]
  | (k', v') :: b' =>
      if decide (k' = k) then (k, v) :: b' else (k', v') :: assoc_set k v b'
  end.

Definition set_prop (k : string) (v : value) (b : bag) : bag := assoc_set k v b.

Definition delete_prop (k : string) (b : bag) : bag :=
  filter (λ kv, kv.1 ≠ k) b.

(** ** The host document tree *)

Inductive child :=
| Text (s : string)
| Element (n : node_id).

Global Instance child_eq_dec : EqDecision child.
Proof. solve_decision. Defined.

(** [tagName] holds the name the document gave the element when it made
    it. *)
Record node := Node {
  tagName : string;
  attributes : list (string * string);
  listeners : list (string * fn);
  childNodes : list child
}.

Global Instance node_eq_dec : EqDecision node.
Proof. solve_decision. Defined.

(** The calls the library makes on the host, as it makes them. *)
Inductive host_call :=
| CreateElement (tag : string) (el : node_id)
| AddEventListener (el : node_id) (type : string) (listener : value)
| SetClassName (el : node_id) (v : value)
| SetAttribute (el : node_id) (name : string) (v : value)
| SetTextContent (el : node_id) (text : string)
| AppendChild (el : node_id) (c : node_id).

Global Instance host_call_eq_dec : EqDecision host_call.
Proof. solve_decision. Defined.

Record error := Error { name : string; message : string }.

Global Instance error_eq_dec : EqDecision error.
Proof. solve_decision. Defined.

Record state := State {
  heap : gmap loc bag;
  dom : list node;
  calls : list host_call;
  console : list (string * string)
}.

Definition entries (h : gmap loc bag) (l : loc) : bag := default [] (h !! l).

(** ** Results and the two monads

    [result] is a computation that returns or throws; [M] threads the store,
    the document, the host-call log and the console through it.  A throw
    keeps the state reached so far. *)

Inductive result (A : Type) :=
| Ok (a : A)
| Throw (e : error).
Arguments Ok {A} a.
Arguments Throw {A} e.

Global Instance result_ret : MRet result := λ A a, Ok a.
Global Instance result_bind : MBind result := λ A B f r,
  match r with
  | Ok a => f a
  | Throw e => Throw e
  end.

Definition M (A : Type) : Type := state → result A * state.

Global Instance M_ret : MRet M := λ A a st, (Ok a, st).
Global Instance M_bind : MBind M := λ A B f m st,
  match m st with
  | (Ok a, st') => f a st'
  | (Throw e, st') => (Throw e, st')
  end.

Definition throw {A : Type} (e : error) : M A := λ st, (Throw e, st).

Definition lift {A : Type} (f : state → result A) : M A := λ st, (f st, st).

(** The result of a step that an exception may have ended. *)
Definition outcome (r : option error) : result unit :=
  match r with
  | None => Ok tt
  | Some e => Throw e
  end.

Definition try_catch {A : Type} (body : M A) (handler : error → M A) : M A :=
  λ st,
    match body st with
    | (Ok a, st') => (Ok a, st')
    | (Throw e, st') => handler e st'
    end.

Fixpoint forEach {A : Type} (f : A → M unit) (l : list A) : M unit :=
  match l with
  | [] => mret tt
  | x :: l' => f x ;; forEach f l'
  end.

Definition TypeError (msg : string) : error := Error "TypeError" msg.

(** ** Language built-ins used by the source *)

Definition typeof (v : value) : string :=
  match v with
  | VUndefined => "undefined"
  | VNull => "object"
  | VBoolean _ => "boolean"
  | VNumber _ => "number"
  | VBigInt _ => "bigint"
  | VString _ => "string"
  | VFunction _ => "function"
  | VArray _ | VObject _ | VElement _ => "object"
  end.

Definition Array_isArray (v : value) : bool :=
  match v with VArray _ => true | _ => false end.

Definition instanceof_HTMLElement (v : value) : bool :=
  match v with VElement _ => true | _ => false end.

Definition truthy (v : value) : bool :=
  match v with
  | VUndefined | VNull => false
  | VBoolean b => b
  | VNumber x => negb (is_zero x || is_nan x)
  | VBigInt n => negb (n =? 0)%Z
  | VString s => negb (String.eqb s "")
  | VFunction _ | VArray _ | VObject _ | VElement _ => true
  end.

(** [a || b] *)
Definition js_or (a b : value) : value := if truthy a then a else b.

(** [s.split(' ')]: the pieces between single space characters; never the
    empty list. *)
Fixpoint split_space (s : string) : list string :=
  match s with
  | EmptyString => [""]
  | String c s' =>
      if Ascii.eqb c " "%char then "" :: split_space s'
      else match split_space s' with
           | t :: ts => String c t :: ts
           | [] => [String c ""]
           end
  end.

(** [v.split(' ')] on a value: only a string has the method. *)
Definition js_split_space (v : value) : result (list string) :=
  match v with
  | VString s => Ok (split_space s)
  | _ => Throw (TypeError "(intermediate value).split is not a function")
  end.

(** [l.filter(Boolean)] on strings. *)
Definition filter_Boolean (l : list string) : list string :=
  filter (λ t, t ≠ "") l.

(** [new Set(l)] then [Array.from]: elements in first-insertion order. *)
Definition Set_add (acc : list string) (t : string) : list string :=
  if decide (t ∈ acc) then acc else acc ++ [t].

Definition Set_from (l : list string) : list string := foldl Set_add [] l.

Definition join (sep : string) (l : list string) : string := String.concat sep l.

(** [key.substring(n)] *)
Definition substring_from (n : nat) (s : string) : string :=
  String.substring n (String.length s - n) s.

Definition startsWith (p s : string) : bool := String.prefix p s.

Definition newline : string := String "010"%char "".
Definition dquote : string := String "034"%char "".
Definition backslash : string := String "092"%char "".

(** *** String conversion

    [String(v)] for a number is the engine's Number::toString, and for a
    function and for an element it is defined by the host (source text,
    interface name); the development is parametric in the three. *)
Class Host := {
  Number_toString : float → string;
  Function_toString : fn → string;
  Element_toString : node_id → string
}.

Definition elements_of (b : bag) : list value := b.*2.

Section Builtins.
Context `{Host}.

(** [String(v)]; an array joins the string forms of its elements with
    commas, printing nothing for null, undefined or an array that is being
    printed already. *)
Fixpoint to_string_fuel (fuel : nat) (h : gmap loc bag) (seen : list loc)
  (v : value) : string :=
  match v with
  | VUndefined => "undefined"
  | VNull => "null"
  | VBoolean b => if b then "true" else "false"
  | VNumber x => Number_toString x
  | VBigInt n => pretty n
  | VString s => s
  | VFunction f => Function_toString f
  | VObject _ => "[object Object]"
  | VElement n => Element_toString n
  | VArray l =>
      match fuel with
      | 0 => ""
      | S fuel' =>
          if decide (l ∈ seen) then ""
          else join ","
                 (map (λ e, match e with
                            | VUndefined | VNull => ""
                            | _ => to_string_fuel fuel' h (l :: seen) e
                            end)
                      (elements_of (entries h l)))
      end
  end.

Definition to_string (h : gmap loc bag) (v : value) : string :=
  to_string_fuel (S (size h)) h [] v.

End Builtins.

(** *** JSON.stringify *)

Definition hex_digit (n : nat) : string :=
  String.substring n 1 "0123456789abcdef".

Definition json_escape (c : ascii) : string :=
  let n := nat_of_ascii c in
  if (n =? 34)%nat then backslash +:+ dquote
  else if (n =? 92)%nat then backslash +:+ backslash
  else if (n =? 8)%nat then backslash +:+ "b"
  else if (n =? 9)%nat then backslash +:+ "t"
  else if (n =? 10)%nat then backslash +:+ "n"
  else if (n =? 12)%nat then backslash +:+ "f"
  else if (n =? 13)%nat then backslash +:+ "r"
  else if (n <? 32)%nat then
    backslash +:+ "u00" +:+ hex_digit (n / 16)%nat +:+ hex_digit (n mod 16)%nat
  else String c "".

Fixpoint json_escape_string (s : string) : string :=
  match s with
  | EmptyString => ""
  | String c s' => json_escape c +:+ json_escape_string s'
  end.

Definition json_quote (s : string) : string :=
  dquote +:+ json_escape_string s +:+ dquote.

Definition stack_overflow : error :=
  Error "RangeError" "Maximum call stack size exceeded".

Section Serialise.
Context `{Host}.

(** The result is [None] where [JSON.stringify] returns undefined.  A number
    that is not finite is printed as null.  A BigInt and an object that
    contains itself make it throw. *)
Fixpoint JSON_stringify_fuel (fuel : nat) (h : gmap loc bag) (seen : list loc)
  (v : value) : result (option string) :=
  match v with
  | VUndefined | VFunction _ => Ok None
  | VNull => Ok (Some "null")
  | VBoolean b => Ok (Some (if b then "true" else "false"))
  | VNumber x => Ok (Some (if is_finite x then Number_toString x else "null"))
  | VBigInt _ => Throw (TypeError "Do not know how to serialize a BigInt")
  | VString s => Ok (Some (json_quote s))
  | VElement _ => Ok (Some "{}")
  | VArray l =>
      match fuel with
      | 0 => Throw stack_overflow
      | S fuel' =>
          if decide (l ∈ seen)
          then Throw (TypeError "Converting circular structure to JSON")
          else
            items ← mapM (JSON_stringify_fuel fuel' h (l :: seen))
                         (elements_of (entries h l));
            Ok (Some ("[" +:+ join "," (map (default "null") items) +:+ "]"))
      end
  | VObject l =>
      match fuel with
      | 0 => Throw stack_overflow
      | S fuel' =>
          if decide (l ∈ seen)
          then Throw (TypeError "Converting circular structure to JSON")
          else
            fields ← mapM (λ kv : string * value,
                             s ← JSON_stringify_fuel fuel' h (l :: seen) kv.2;
                             Ok (option_map (λ t, json_quote kv.1 +:+ ":" +:+ t) s))
                          (entries h l);
            Ok (Some ("{" +:+ join "," (omap id fields) +:+ "}"))
      end
  end.

Definition JSON_stringify (v : value) : M (option string) :=
  lift (λ st, JSON_stringify_fuel (S (size (heap st))) (heap st) [] v).

End Serialise.

(** A template literal prints an undefined result as the word. *)
Definition template (s : option string) : string := default "undefined" s.

(** ** The document

    [document.createElement] and [Element.setAttribute] check the name they
    are given and throw an InvalidCharacterError for one that is not valid;
    in an HTML document they lower-case a valid one.  Which names are valid
    is the document's business, and has changed between versions of the DOM
    Standard, so the development is parametric in it: [element_name] is the
    name of the element that [createElement] makes, [attribute_name] the
    name under which [setAttribute] stores a value, and either is the
    exception thrown for a name that is refused.  The other operations the
    library uses (the className and textContent setters, addEventListener,
    and appendChild of an element to a new element) do not throw. *)
Class Document := {
  element_name : string → result string;
  attribute_name : string → result string
}.

(** ** Host operations

    Each one records the call and applies its effect to the tree. *)

Definition add_listener (type : string) (f : fn) (nd : node) : node :=
  if decide ((type, f) ∈ listeners nd) then nd
  else Node (tagName nd) (attributes nd) (listeners nd ++ [(type, f)]) (childNodes nd).

(** The attribute list with a value stored under a name that the document
    has accepted. *)
Definition store_attribute (name : string) (s : string) (nd : node) : node :=
  Node (tagName nd) (assoc_set name s (attributes nd)) (listeners nd) (childNodes nd).

(** Setting the text content replaces the children by one text node, or by
    none when the text is empty. *)
Definition text_children (s : string) : list child :=
  if decide (s = "") then [] else [Text s].

Definition set_text (s : string) (nd : node) : node :=
  Node (tagName nd) (attributes nd) (listeners nd) (text_children s).

Definition detach (c : node_id) (nd : node) : node :=
  Node (tagName nd) (attributes nd) (listeners nd)
       (filter (λ ch, ch ≠ Element c) (childNodes nd)).

Definition attach (c : node_id) (nd : node) : node :=
  Node (tagName nd) (attributes nd) (listeners nd) (childNodes nd ++ [Element c]).

(** [appendChild] moves: the child leaves the parent it had. *)
Definition move_child (el c : node_id) (d : list node) : list node :=
  alter (attach c) el (detach c <$> d).

Definition console_error (a b : string) : M unit :=
  λ st, (Ok tt, State (heap st) (dom st) (calls st) (console st ++ [(a, b)])).

Section Program.
Context {H : Host} {D : Document}.

Definition String_ (v : value) : M string := lift (λ st, Ok (to_string (heap st) v)).

(** The exception the host throws on a call, if it refuses it. *)
Definition refusal (c : host_call) : option error :=
  match c with
  | CreateElement tag _ =>
      match element_name tag with Throw e => Some e | Ok _ => None end
  | SetAttribute _ name _ =>
      match attribute_name name with Throw e => Some e | Ok _ => None end
  | _ => None
  end.

(** The effect of one host call on the tree; a call that is refused has
    none. *)
Definition apply_call (h : gmap loc bag) (c : host_call) (d : list node)
  : list node :=
  match c with
  | CreateElement tag _ =>
      match element_name tag with
      | Ok name => d ++ [Node name [] [] []]
      | Throw _ => d
      end
  | AddEventListener el type (VFunction f) => alter (add_listener type f) el d
  | AddEventListener _ _ _ => d
  | SetClassName el v => alter (store_attribute "class" (to_string h v)) el d
  | SetAttribute el name v =>
      match attribute_name name with
      | Ok name' => alter (store_attribute name' (to_string h v)) el d
      | Throw _ => d
      end
  | SetTextContent el s => alter (set_text s) el d
  | AppendChild el c => move_child el c d
  end.

Definition host (c : host_call) : M unit :=
  λ st,
    (match refusal c with Some e => Throw e | None => Ok tt end,
     State (heap st) (apply_call (heap st) c (dom st)) (calls st ++ [c])
           (console st)).

(** The new node is the next one of the tree. *)
Definition host_createElement (tag : string) : M node_id :=
  λ st,
    let element := length (dom st) in
    (host (CreateElement tag element) ;; mret element) st.

Definition host_addEventListener (element : node_id) (type : string)
  (listener : value) : M unit :=
  host (AddEventListener element type listener).

Definition host_set_className (element : node_id) (v : value) : M unit :=
  host (SetClassName element v).

Definition host_setAttribute (element : node_id) (name : string) (v : value)
  : M unit :=
  host (SetAttribute element name v).

Definition host_set_textContent (element : node_id) (text : string) : M unit :=
  host (SetTextContent element text).

Definition host_appendChild (element c : node_id) : M unit :=
  host (AppendChild element c).

(** [Object.entries(v)], for a value whose type is object. *)
Definition Object_entries (v : value) : M bag :=
  lift (λ st,
    match v with
    | VUndefined | VNull =>
        Throw (TypeError "Cannot convert undefined or null to object")
    | VArray l | VObject l => Ok (entries (heap st) l)
    | _ => Ok []
    end).

(** ** createNativeDOMElement

    A local variable that still holds the literal it was initialised with
    ([{}] or [[]]) is [None]: the literal never leaves the call. *)

Definition props_entries (props : option value) : M bag :=
  match props with
  | None => mret []
  | Some v => Object_entries v
  end.

(** The body of the loop over [Object.entries(props)]. *)
Definition apply_prop (element : node_id) (kv : string * value) : M unit :=
  let '(key, value) := kv in
  if startsWith "on" key && bool_decide (typeof value = "function") then
    let eventType := substring_from 2 key in
    host_addEventListener element eventType value
  else if bool_decide (key = "className") then
    host_set_className element value
  else if bool_decide (key = "data") && bool_decide (typeof value = "object") then
    nested ← Object_entries value;
    forEach (λ '(dataKey, dataValue),
               s ← String_ dataValue;
               host_setAttribute element ("data-" +:+ dataKey) (VString s))
            nested
  else
    host_setAttribute element key value.

(** The body of the loop over a list of children. *)
Definition apply_child (element : node_id) (c : value) : M unit :=
  if instanceof_HTMLElement c then
    match c with
    | VElement n => host_appendChild element n
    | _ => mret tt
    end
  else mret tt.

Definition apply_children (element : node_id) (children : option value)
  : M unit :=
  match children with
  | None => mret tt
  | Some c =>
      if bool_decide (typeof c = "string") || bool_decide (typeof c = "number")
      then
        s ← String_ c;
        host_set_textContent element s
      else if Array_isArray c then
        match c with
        | VArray l =>
            es ← lift (λ st, Ok (elements_of (entries (heap st) l)));
            forEach (apply_child element) es
        | _ => mret tt
        end
      else mret tt
  end.

Definition createNativeDOMElement (tag : string) (props children : option value)
  : M node_id :=
  element ← host_createElement tag;
  es ← props_entries props;
  forEach (apply_prop element) es;;
  apply_children element children;;
  mret element.

(** ** createNativeElementFunction *)

Definition default_null (v : value) : value :=
  match v with VUndefined => VNull | _ => v end.

Definition is_null (v : value) : bool := bool_decide (v = VNull).

Definition is_scalar (v : value) : bool :=
  bool_decide (typeof v = "string") || bool_decide (typeof v = "number").

Definition is_plain_object (v : value) : bool :=
  bool_decide (typeof v = "object") && negb (is_null v)
  && negb (Array_isArray v) && negb (instanceof_HTMLElement v).

Definition invalid_parameters (tag : string) (s1 t1 s2 t2 : string) : string :=
  join newline
    [ "Invalid parameters for <" +:+ tag +:+ "> element creation.";
      "Received:";
      "- param1: " +:+ s1 +:+ " (" +:+ t1 +:+ ")";
      "- param2: " +:+ s2 +:+ " (" +:+ t2 +:+ ")" ].

(** The chain of patterns; the result is the pair of local variables
    [(props, children)]. *)
Definition resolve (tag : string) (param1 param2 : value)
  : M (option value * option value) :=
  if is_null param1 && is_null param2 then
    mret (None, None)
  else if Array_isArray param1 && is_null param2 then
    mret (None, Some param1)
  else if is_scalar param1 && is_null param2 then
    mret (None, Some param1)
  else if is_plain_object param1 && is_null param2 then
    mret (Some param1, None)
  else if is_plain_object param1 && Array_isArray param2 then
    mret (Some param1, Some param2)
  else if is_plain_object param1 && is_scalar param2 then
    mret (Some param1, Some param2)
  else
    s1 ← JSON_stringify param1;
    s2 ← JSON_stringify param2;
    throw (Error "Error"
             (invalid_parameters tag (template s1) (typeof param1)
                                     (template s2) (typeof param2))).

Definition read_prop (props : option value) (k : string) : M value :=
  lift (λ st,
    match props with
    | Some (VObject l) => Ok (get_prop k (entries (heap st) l))
    | _ => Ok VUndefined
    end).

Definition update_props (props : option value) (f : bag → bag) : M unit :=
  λ st,
    match props with
    | Some (VObject l) =>
        (Ok tt,
         State (<[l := f (entries (heap st) l)]> (heap st)) (dom st) (calls st)
               (console st))
    | _ => (Ok tt, st)
    end.

(** "Handle className and classes props". *)
Definition merge_classes (props : option value) : M unit :=
  className ← read_prop props "className";
  classes ← read_prop props "classes";
  if truthy className || truthy classes then
    classNameList ← lift (λ _, js_split_space (js_or className (VString "")));
    classesList ← lift (λ _, js_split_space (js_or classes (VString "")));
    let uniqueClasses := Set_from (filter_Boolean (classNameList ++ classesList)) in
    update_props props (set_prop "className" (VString (join " " uniqueClasses)));;
    update_props props (delete_prop "classes")
  else mret tt.

(** The [try] block. *)
Definition try_block (tag : string) (param1 param2 : value) : M node_id :=
  '(props, children) ← resolve tag param1 param2;
  merge_classes props;;
  createNativeDOMElement tag props children.

(** The [catch] block. *)
Definition catch_block (tag : string) (error : error) : M node_id :=
  console_error ("Error creating " +:+ tag +:+ " element:") (message error);;
  throw error.

Definition createNativeElementFunction (tag : string) (param1 param2 : value)
  : M node_id :=
  let param1 := default_null param1 in
  let param2 := default_null param2 in
  try_catch (try_block tag param1 param2) (catch_block tag).

End Program.

(** ** The specification's vocabulary *)

(** A parameter that was not passed, or passed as null. *)
Inductive absent : value → Prop :=
| absent_undefined : absent VUndefined
| absent_null : absent VNull.

(** A string or a number. *)
Inductive scalar : value → Prop :=
| scalar_string s : scalar (VString s)
| scalar_number n : scalar (VNumber n).

(** The six recognised call shapes with the local variables each one
    yields; [None] is the initial literal ([{}] for props, [[]] for
    children). *)
Inductive call_shape : value → value → option value → option value → Prop :=
| shape_empty p1 p2 :
    absent p1 → absent p2 → call_shape p1 p2 None None
| shape_children l p2 :
    absent p2 → call_shape (VArray l) p2 None (Some (VArray l))
| shape_text v p2 :
    scalar v → absent p2 → call_shape v p2 None (Some v)
| shape_props l p2 :
    absent p2 → call_shape (VObject l) p2 (Some (VObject l)) None
| shape_props_children l l' :
    call_shape (VObject l) (VArray l') (Some (VObject l)) (Some (VArray l'))
| shape_props_text l v :
    scalar v → call_shape (VObject l) v (Some (VObject l)) (Some v).

(** Duplicates removed, first occurrences kept in order. *)
Fixpoint first_occurrences (l : list string) : list string :=
  match l with
  | [] => []
  | t :: l' => t :: filter (λ u, u ≠ t) (first_occurrences l')
  end.

(** Splitting on whitespace, as the specification words the class merge. *)
Definition is_whitespace (c : ascii) : bool :=
  bool_decide (nat_of_ascii c ∈ [9; 10; 11; 12; 13; 32]).

Fixpoint split_whitespace (s : string) : list string :=
  match s with
  | EmptyString => [""]
  | String c s' =>
      if is_whitespace c then "" :: split_whitespace s'
      else match split_whitespace s' with
           | t :: ts => String c t :: ts
           | [] => [String c ""]
           end
  end.

Definition spec_class_tokens (className classes : string) : list string :=
  first_occurrences
    (filter (λ t, t ≠ "") (split_whitespace className ++ split_whitespace classes)).

(** The tokens the source computes. *)
Definition class_tokens (className classes : string) : list string :=
  first_occurrences
    (filter (λ t, t ≠ "") (split_space className ++ split_space classes)).

(** The text of a class field: its own when it is a string, empty when the
    field is absent (or holds another falsy value); a truthy value that is
    not a string has none. *)
Definition class_string (v : value) : option string :=
  match v with
  | VString s => Some s
  | _ => if truthy v then None else Some ""
  end.

Definition merged_bag (className classes : string) (b : bag) : bag :=
  delete_prop "classes"
    (set_prop "className" (VString (join " " (class_tokens className classes))) b).

Definition element_ids (l : list value) : list node_id :=
  omap (λ v, match v with VElement n => Some n | _ => None end) l.

Definition is_attribute_call (c : host_call) : Prop :=
  match c with
  | AddEventListener _ _ _ | SetClassName _ _ | SetAttribute _ _ _ => True
  | _ => False
  end.

Definition is_text (c : child) : Prop :=
  match c with Text _ => True | Element _ => False end.

Global Instance is_text_dec c : Decision (is_text c).
Proof. destruct c; simpl; apply _. Defined.

(** ** The builder as the host calls it makes *)

Section Traces.
Context {H : Host} {D : Document}.

(** The host calls of the children step. *)
Definition children_calls (h : gmap loc bag) (element : node_id)
  (children : option value) : list host_call :=
  match children with
  | Some (VString s) => [SetTextContent element s]
  | Some (VNumber x) => [SetTextContent element (Number_toString x)]
  | Some (VArray l) =>
      AppendChild element <$> element_ids (elements_of (entries h l))
  | _ => []
  end.

(** A sequence of host calls carried out on a state. *)
Definition perform (cs : list host_call) (st : state) : state :=
  State (heap st) (foldl (λ d c, apply_call (heap st) c d) (dom st) cs)
        (calls st ++ cs) (console st).

(** The call made for one pair of a data mapping. *)
Definition data_call (h : gmap loc bag) (element : node_id) (kv : string * value)
  : host_call :=
  SetAttribute element ("data-" +:+ kv.1) (VString (to_string h kv.2)).

(** The calls of a sequence that are made, up to the first one the host
    refuses, and the exception it throws there. *)
Fixpoint attempt (cs : list host_call) : list host_call * option error :=
  match cs with
  | [] => ([], None)
  | c :: cs' =>
      match refusal c with
      | Some e => ([c], Some e)
      | None => let '(made, r) := attempt cs' in (c :: made, r)
      end
  end.

(** The host calls one property leads to. *)
Definition prop_calls (h : gmap loc bag) (element : node_id)
  (kv : string * value) : result (list host_call) :=
  let '(key, value) := kv in
  if startsWith "on" key && bool_decide (typeof value = "function") then
    Ok [AddEventListener element (substring_from 2 key) value]
  else if bool_decide (key = "className") then
    Ok [SetClassName element value]
  else if bool_decide (key = "data") && bool_decide (typeof value = "object") then
    match value with
    | VNull => Throw (TypeError "Cannot convert undefined or null to object")
    | VArray l | VObject l =>
        Ok (data_call h element <$> entries h l)
    | _ => Ok []
    end
  else Ok [SetAttribute element key value].

(** The calls of the properties loop, and the error that stopped it. *)
Fixpoint props_calls (h : gmap loc bag) (element : node_id) (es : bag)
  : list host_call * option error :=
  match es with
  | [] => ([], None)
  | kv :: es' =>
      match prop_calls h element kv with
      | Ok cs =>
          match attempt cs with
          | (made, Some e) => (made, Some e)
          | (made, None) =>
              let '(cs', r) := props_calls h element es' in (made ++ cs', r)
          end
      | Throw e => ([], Some e)
      end
  end.

Definition props_bag (h : gmap loc bag) (props : option value) : bag :=
  match props with
  | Some (VObject l) | Some (VArray l) => entries h l
  | _ => []
  end.

(** The calls of a whole build, and the exception that ended it. *)
Definition build_calls (h : gmap loc bag) (element : node_id) (tag : string)
  (props children : option value) : list host_call * option error :=
  match element_name tag with
  | Throw e => ([CreateElement tag element], Some e)
  | Ok _ =>
      match props with
      | Some VUndefined | Some VNull =>
          ([CreateElement tag element],
           Some (TypeError "Cannot convert undefined or null to object"))
      | _ =>
          let '(cs, r) := props_calls h element (props_bag h props) in
          match r with
          | Some e => (CreateElement tag element :: cs, Some e)
          | None =>
              (CreateElement tag element :: cs ++ children_calls h element children,
               None)
          end
      end
  end.

End Traces.

(** ** The tree after a sequence of calls on one element *)

Definition on_element (el : node_id) (c : host_call) : Prop :=
  match c with
  | CreateElement _ _ => False
  | AddEventListener e _ _ | SetClassName e _ | SetAttribute e _ _
  | SetTextContent e _ | AppendChild e _ => e = el
  end.

(** The same call made on another element. *)
Definition retarget (el : node_id) (c : host_call) : host_call :=
  match c with
  | CreateElement tag _ => CreateElement tag el
  | AddEventListener _ type listener => AddEventListener el type listener
  | SetClassName _ v => SetClassName el v
  | SetAttribute _ name v => SetAttribute el name v
  | SetTextContent _ s => SetTextContent el s
  | AppendChild _ c => AppendChild el c
  end.

(** What a call does to every node other than the one it is made on. *)
Definition bystander_call (nd : node) (c : host_call) : node :=
  match c with
  | AppendChild _ ch => detach ch nd
  | _ => nd
  end.

Section NodeCalls.
Context {H : Host} {D : Document}.

(** What a call does to the node it is made on. *)
Definition node_call (h : gmap loc bag) (nd : node) (c : host_call) : node :=
  match c with
  | CreateElement _ _ => nd
  | AddEventListener _ type (VFunction f) => add_listener type f nd
  | AddEventListener _ _ _ => nd
  | SetClassName _ v => store_attribute "class" (to_string h v) nd
  | SetAttribute _ name v =>
      match attribute_name name with
      | Ok name' => store_attribute name' (to_string h v) nd
      | Throw _ => nd
      end
  | SetTextContent _ s => set_text s nd
  | AppendChild _ ch => attach ch (detach ch nd)
  end.

End NodeCalls.

(** The text children of a node stay when its child elements are moved. *)
Definition without_elements (nd : node) : node :=
  Node (tagName nd) (attributes nd) (listeners nd)
       (filter is_text (childNodes nd)).

Definition child_of (ids : list node_id) (ch : child) : Prop :=
  ∃ c, ch = Element c ∧ c ∈ ids.

Section Built.
Context {H : Host} {D : Document}.

(** The node a build produces, under the name the document gave it, and
    what the build does to the others. *)
Definition built (h : gmap loc bag) (name : string) (es : bag)
  (children : option value) : node :=
  foldl (node_call h) (Node name [] [] [])
        ((props_calls h 0 es).1 ++ children_calls h 0 children).

Definition robbed (h : gmap loc bag) (children : option value) (nd : node) : node :=
  foldl bystander_call nd (children_calls h 0 children).

End Built.

(** ** A sample engine and a sample document

    [Number_toString_10] is Number::toString of ECMA-262 for radix 10: the
    shortest decimal that reads back as the same double, the closest one
    where several are as short, laid out with or without an exponent. *)

(** [a * 2^p * 10^q] compared with [b * 2^r * 10^s]. *)
Definition scaled_compare (a p q b r s : Z) : comparison :=
  let two := Z.min p r in
  let ten := Z.min q s in
  (a * 2 ^ (p - two) * 10 ^ (q - ten) ?= b * 2 ^ (r - two) * 10 ^ (s - ten))%Z.

Definition scaled_leb (a p q b r s : Z) : bool :=
  match scaled_compare a p q b r s with Gt => false | _ => true end.

Definition scaled_ltb (a p q b r s : Z) : bool :=
  match scaled_compare a p q b r s with Lt => true | _ => false end.

(** The [n] with [10^(n-1) <= m * 2^e < 10^n], searched upwards from an
    estimate that is below it. *)
Fixpoint decimal_exponent_from (fuel : nat) (n m e : Z) : Z :=
  match fuel with
  | O => n
  | S fuel' =>
      if scaled_ltb m e 0 1 0 n then n
      else decimal_exponent_from fuel' (n + 1) m e
  end.

Definition decimal_exponent (m e : Z) : Z :=
  decimal_exponent_from 4 ((Z.log2 m + e) * 30103 / 100000 - 1) m e.

(** Does the decimal [s * 10^q] read back as the double [m * 2^e]?  It does
    when it lies between the midpoints to the neighbouring doubles, the
    midpoints themselves included when [m] is even.  The double below is
    half as far when [m] is the least mantissa of its binade. *)
Definition reads_back (m e : Z) (s q : Z) : bool :=
  let least := (m =? 2 ^ 52)%Z && (-1074 <? e)%Z in
  let lo := (if least then 4 * m - 1 else 4 * m - 2)%Z in
  let hi := (4 * m + 2)%Z in
  if Z.even m
  then scaled_leb lo (e - 2) 0 s 0 q && scaled_leb s 0 q hi (e - 2) 0
  else scaled_ltb lo (e - 2) 0 s 0 q && scaled_ltb s 0 q hi (e - 2) 0.

(** Of the decimals [below * 10^q] and [above * 10^q] on either side of
    [m * 2^e], the closer one, the even one if they are as close. *)
Definition closest (m e q below above : Z) : Z :=
  match scaled_compare (2 * m) e 0 (below + above) 0 q with
  | Lt => below
  | Gt => above
  | Eq => if Z.even below then below else above
  end.

(** The decimal of [k] digits for [m * 2^e], if there is one. *)
Definition digits_at (m e n k : Z) : option (Z * Z) :=
  let q := (n - k)%Z in
  let two := Z.min e 0 in
  let ten := Z.min q 0 in
  let below :=
    ((m * 2 ^ (e - two) * 10 ^ (0 - ten)) / (2 ^ (0 - two) * 10 ^ (q - ten)))%Z in
  let above := (below + 1)%Z in
  let below_ok := (0 <? below)%Z && reads_back m e below q in
  let above_ok := reads_back m e above q in
  if below_ok && above_ok then Some (closest m e q below above, q)
  else if below_ok then Some (below, q)
  else if above_ok then Some (above, q)
  else None.

Fixpoint shortest_from (fuel : nat) (m e n k : Z) : Z * Z :=
  match fuel with
  | O => (m, 0%Z)
  | S fuel' =>
      match digits_at m e n k with
      | Some r => r
      | None => shortest_from fuel' m e n (k + 1)
      end
  end.

Fixpoint strip_zeros (fuel : nat) (s q : Z) : Z * Z :=
  match fuel with
  | O => (s, q)
  | S fuel' =>
      if (s mod 10 =? 0)%Z then strip_zeros fuel' (s / 10) (q + 1) else (s, q)
  end.

Fixpoint zeros (n : nat) : string :=
  match n with O => "" | S n' => "0" +:+ zeros n' end.

Definition exponent_part (n : Z) : string :=
  "e" +:+ (if (0 <=? n - 1)%Z then "+" else "-") +:+ pretty (Z.abs (n - 1)).

(** The digits [ds] of a number whose decimal point is after the [n]-th. *)
Definition format_digits (ds : string) (n : Z) : string :=
  let k := Z.of_nat (String.length ds) in
  if (k <=? n)%Z && (n <=? 21)%Z then ds +:+ zeros (Z.to_nat (n - k))
  else if (0 <? n)%Z && (n <=? 21)%Z then
    String.substring 0 (Z.to_nat n) ds +:+ "." +:+
    String.substring (Z.to_nat n) (Z.to_nat (k - n)) ds
  else if (-6 <? n)%Z && (n <=? 0)%Z then "0." +:+ zeros (Z.to_nat (- n)) +:+ ds
  else if (k =? 1)%Z then ds +:+ exponent_part n
  else String.substring 0 1 ds +:+ "." +:+
       String.substring 1 (Z.to_nat (k - 1)) ds +:+ exponent_part n.

Definition finite_to_string (m : positive) (e : Z) : string :=
  let m := Z.pos m in
  let '(s, q) := shortest_from 17 m e (decimal_exponent m e) 1 in
  let '(s, q) := strip_zeros 40 s q in
  let ds := pretty s in
  format_digits ds (Z.of_nat (String.length ds) + q).

Definition Number_toString_10 (x : float) : string :=
  match Prim2SF x with
  | S754_nan => "NaN"
  | S754_zero _ => "0"
  | S754_infinity s => if s then "-Infinity" else "Infinity"
  | S754_finite s m e => (if s then "-" else "") +:+ finite_to_string m e
  end.

Definition sample_host : Host :=
  {| Number_toString := Number_toString_10;
     Function_toString := λ _, "function () { [native code] }";
     Element_toString := λ _, "[object HTMLElement]" |}.

(** An HTML document, with the names the DOM Standard has as valid element
    and attribute local names. *)
Definition ascii_lower (c : ascii) : ascii :=
  let n := nat_of_ascii c in
  if (65 <=? n)%nat && (n <=? 90)%nat then ascii_of_nat (n + 32) else c.

Fixpoint ascii_lowercase (s : string) : string :=
  match s with
  | EmptyString => EmptyString
  | String c s' => String (ascii_lower c) (ascii_lowercase s')
  end.

Fixpoint string_forall (P : ascii → bool) (s : string) : bool :=
  match s with
  | EmptyString => true
  | String c s' => P c && string_forall P s'
  end.

Definition is_ascii_alpha (c : ascii) : bool :=
  let n := nat_of_ascii c in
  ((65 <=? n)%nat && (n <=? 90)%nat) || ((97 <=? n)%nat && (n <=? 122)%nat).

Definition is_ascii_digit (c : ascii) : bool :=
  let n := nat_of_ascii c in (48 <=? n)%nat && (n <=? 57)%nat.

(** Tab, line feed, form feed, carriage return, space, and the characters
    NUL, [/], [=] and [>]. *)
Definition breaks_attribute_name (c : ascii) : bool :=
  bool_decide (nat_of_ascii c ∈ [9; 10; 12; 13; 32; 0; 47; 61; 62]).

Definition breaks_element_name (c : ascii) : bool :=
  bool_decide (nat_of_ascii c ∈ [9; 10; 12; 13; 32; 0; 47; 62]).

(** A colon, an underscore, or a character outside ASCII. *)
Definition starts_plain_name (c : ascii) : bool :=
  let n := nat_of_ascii c in
  bool_decide (n ∈ [58; 95]) || (128 <=? n)%nat.

Definition in_plain_name (c : ascii) : bool :=
  is_ascii_alpha c || is_ascii_digit c
  || bool_decide (nat_of_ascii c ∈ [45; 46]) || starts_plain_name c.

Definition valid_attribute_local_name (s : string) : bool :=
  negb (String.eqb s "") && string_forall (λ c, negb (breaks_attribute_name c)) s.

Definition valid_element_local_name (s : string) : bool :=
  match s with
  | EmptyString => false
  | String c rest =>
      if is_ascii_alpha c then string_forall (λ c, negb (breaks_element_name c)) rest
      else starts_plain_name c && string_forall in_plain_name rest
  end.

Definition InvalidCharacterError (msg : string) : error :=
  Error "InvalidCharacterError" msg.

Definition html_document : Document :=
  {| element_name tag :=
       if valid_element_local_name tag then Ok (ascii_lowercase tag)
       else Throw (InvalidCharacterError
                     ("Failed to execute 'createElement' on 'Document': "
                      +:+ "The tag name provided ('" +:+ tag
                      +:+ "') is not a valid name."));
     attribute_name name :=
       if valid_attribute_local_name name then Ok (ascii_lowercase name)
       else Throw (InvalidCharacterError
                     ("Failed to execute 'setAttribute' on 'Element': '"
                      +:+ name +:+ "' is not a valid attribute name.")) |}.

(** A document that takes every name as it is given. *)
Definition permissive : Document :=
  {| element_name := Ok; attribute_name := Ok |}.

(** ** Sample data *)

Definition tab : string := String "009"%char "".

Definition store (h : gmap loc bag) (d : list node) : state := State h d [] [].

Definition li (text : string) : node := Node "li" [] [] [Text text].

Definition merge_sample : state :=
  store {[ 0 := [("className", VString "a b"); ("classes", VString "b c")] ]} [].

Definition children_sample : state :=
  store {[ 0 := [("0", VElement 0); ("1", VElement 1)] ]} [li "a"; li "b"].

Definition twice_sample : state :=
  store {[ 0 := [("id", VString "x"); ("onclick", VFunction 1)] ]} [].

Definition with_heap (h : gmap loc bag) (st : state) : state :=
  State h (dom st) (calls st) (console st).

(** The state after the catch block has logged [e]. *)
Definition diagnostic (tag : string) (e : error) (st : state) : state :=
  State (heap st) (dom st) (calls st)
        (console st ++ [("Error creating " +:+ tag +:+ " element:", message e)]).

(** The objects being printed are distinct objects of the store. *)
Definition on_stack (h : gmap loc bag) (seen : list loc) : Prop :=
  NoDup seen ∧ ∀ l, l ∈ seen → is_Some (h !! l).

(** A token without the space character. *)
Fixpoint no_space (t : string) : Prop :=
  match t with
  | EmptyString => True
  | String c t' => c ≠ " "%char ∧ no_space t'
  end.

(** ** The registry

    [htmlElements], and [html]: the object the reduce over it builds, as the
    map of its own properties. *)

Definition htmlElements : list string :=
  [ "a"; "abbr"; "address"; "area"; "article"; "aside"; "audio"; "b";
    "base"; "bdi"; "bdo"; "blockquote"; "body"; "br"; "button"; "canvas";
    "caption"; "cite"; "code"; "col"; "colgroup"; "data"; "datalist"; "dd";
    "details"; "dfn"; "dialog"; "div"; "dl"; "dt"; "em"; "embed";
    "fieldset"; "figcaption"; "figure"; "footer"; "form"; "h1"; "h2"; "h3";
    "h4"; "h5"; "h6"; "head"; "header"; "hgroup"; "hr"; "html"; "i";
    "iframe"; "img"; "input"; "kbd"; "label"; "legend"; "li"; "link";
    "main"; "map"; "mark"; "menu"; "meta"; "meter"; "nav"; "noscript";
    "object"; "ol"; "optgroup"; "option"; "output"; "p"; "param";
    "picture"; "pre"; "progress"; "q"; "rp"; "rt"; "ruby"; "s"; "samp";
    "search"; "section"; "select"; "small"; "source"; "span"; "strong";
    "style"; "sub"; "summary"; "sup"; "svg"; "table"; "tbody"; "td";
    "template"; "textarea"; "tfoot"; "th"; "thead"; "time"; "title"; "tr";
    "track"; "u"; "ul"; "var"; "video"; "wbr" ].

Section Registry.
Context {H : Host} {D : Document}.

Definition html : gmap string (value → value → M node_id) :=
  foldl (λ acc tag, <[tag := createNativeElementFunction tag]> acc)
        ∅ htmlElements.

End Registry.

(** A property other than the two class fields. *)
Definition other_prop (kv : string * value) : Prop :=
  kv.1 ≠ "className" ∧ kv.1 ≠ "classes".

Global Instance other_prop_dec kv : Decision (other_prop kv).
Proof. unfold other_prop. apply _. Defined.


(** The error of [Object.entries] on null. *)
Definition null_entries : error :=
  TypeError "Cannot convert undefined or null to object".

Definition frame_sample : state :=
  store {[ 0 := [("classes", VString "x"); ("data", VObject 1)];
           1 := [("id", VString "5")];
           2 := [("0", VElement 0)] ]} [li "a"].

(** The error of [split] called on a value that is not a string. *)
Definition split_error : error :=
  TypeError "(intermediate value).split is not a function".

(** The second parameters accepted after a properties object. *)
Definition valid_second (p2 : value) : Prop :=
  absent p2 ∨ scalar p2 ∨ ∃ l, p2 = VArray l.


Definition props_sample : state :=
  store {[ 0 := [("id", VString "x"); ("onKeyDown", VFunction 1);
                 ("handlers", VObject 2); ("data", VObject 1);
                 ("onClick", VString "go")];
           1 := [("id", VString "5"); ("kind", VString "x")];
           2 := [] ]} [].

Definition bad_class_sample : state :=
  store {[ 0 := [("className", VNumber 5); ("id", VString "x")] ]} [].

(** * Properties *)

(** ** Lists of tokens *)
Lemma filter_all {A} (P : A → Prop) `{∀ x, Decision (P x)} (l : list A) :
  Forall P l → filter P l = l.
Proof.
  induction 1 as [|x l Hx _ IH]; [done|].
  by rewrite filter_cons_True, IH.
Qed.

Lemma Set_from_acc acc l :
  foldl Set_add acc l = acc ++ filter (λ x, x ∉ acc) (first_occurrences l).
Proof.
  revert acc. induction l as [|x l IH]; intros acc.
  - simpl. by rewrite app_nil_r.
  - cbn [foldl first_occurrences]. unfold Set_add at 2.
    destruct (decide (x ∈ acc)) as [Hin|Hout].
    + rewrite IH, filter_cons_False by (intros Hn; by apply Hn).
      f_equal. rewrite list_filter_filter. apply list_filter_iff.
      intros y. simpl. split; [intros Hy; split; [done|congruence]|tauto].
    + rewrite IH, filter_cons_True by done.
      rewrite <- app_assoc. cbn [app]. do 2 f_equal.
      rewrite list_filter_filter. apply list_filter_iff.
      intros y. simpl. rewrite elem_of_app, list_elem_of_singleton. tauto.
Qed.

Lemma Set_from_first_occurrences l : Set_from l = first_occurrences l.
Proof.
  unfold Set_from. rewrite Set_from_acc. cbn [app].
  apply filter_all, Forall_forall. intros x _. apply not_elem_of_nil.
Qed.

Lemma first_occurrences_elem_of l x : x ∈ first_occurrences l ↔ x ∈ l.
Proof.
  induction l as [|y l IH]; [done|]. cbn [first_occurrences].
  rewrite !elem_of_cons, list_elem_of_filter, IH.
  destruct (decide (x = y)); intuition congruence.
Qed.

Lemma first_occurrences_NoDup l : NoDup (first_occurrences l).
Proof.
  induction l as [|y l IH]; [constructor|]. cbn [first_occurrences].
  constructor; [|by apply NoDup_filter].
  rewrite list_elem_of_filter. tauto.
Qed.

Lemma first_occurrences_id l : NoDup l → first_occurrences l = l.
Proof.
  induction 1 as [|x l Hx _ IH]; [done|]. cbn [first_occurrences].
  rewrite IH. f_equal. apply filter_all, Forall_forall. intros y Hy ->. done.
Qed.

(** ** The builder as a sequence of host calls *)

Section TraceLemmas.
Context {H : Host} {D : Document}.

Lemma perform_nil st : perform [] st = st.
Proof. destruct st. unfold perform. simpl. by rewrite app_nil_r. Qed.

Lemma perform_app cs1 cs2 st :
  perform (cs1 ++ cs2) st = perform cs2 (perform cs1 st).
Proof. unfold perform. simpl. by rewrite foldl_app, app_assoc. Qed.

Lemma perform_cons c cs st :
  perform (c :: cs) st = perform cs (perform [c] st).
Proof. apply (perform_app [c] cs). Qed.

Lemma host_run c st : host c st = (outcome (refusal c), perform [c] st).
Proof. unfold host, outcome. by destruct (refusal c). Qed.

Lemma heap_perform cs st : heap (perform cs st) = heap st.
Proof. reflexivity. Qed.

Lemma bind_run {A B} (m : M A) (f : A → M B) st :
  (m ≫= f) st
  = match m st with
    | (Ok a, st') => f a st'
    | (Throw e, st') => (Throw e, st')
    end.
Proof. reflexivity. Qed.

(** What the host accepts is made as it stands. *)
Lemma attempt_accepted cs :
  Forall (λ c, refusal c = None) cs → attempt cs = (cs, None).
Proof.
  induction 1 as [|c cs Hc _ IH]; [done|]. cbn [attempt]. by rewrite Hc, IH.
Qed.

Lemma attempt_made cs : (attempt cs).2 = None → (attempt cs).1 = cs.
Proof.
  induction cs as [|c cs IH]; [done|]. cbn [attempt].
  destruct (refusal c); [done|].
  destruct (attempt cs) as [made r]. cbn [fst snd] in *. intros ->. by rewrite IH.
Qed.

Lemma attempt_prefix cs : ∃ rest, cs = (attempt cs).1 ++ rest.
Proof.
  induction cs as [|c cs [rest IH]]; [by exists []|]. cbn [attempt].
  destruct (refusal c); [by exists cs|].
  destruct (attempt cs) as [made r]. cbn [fst] in *. exists rest. by rewrite IH at 1.
Qed.

Lemma attempt_Forall (P : host_call → Prop) cs :
  Forall P cs → Forall P (attempt cs).1.
Proof.
  intros Hcs. destruct (attempt_prefix cs) as [rest Hrest].
  rewrite Hrest in Hcs. by apply Forall_app in Hcs as [? _].
Qed.

Lemma forEach_data_run element (nested : bag) st :
  forEach (λ '(dataKey, dataValue),
             s ← String_ dataValue;
             host_setAttribute element ("data-" +:+ dataKey) (VString s))
          nested st
  = let '(made, r) := attempt (data_call (heap st) element <$> nested) in
    (outcome r, perform made st).
Proof.
  revert st. induction nested as [|[k v] nested IH]; intros st.
  - simpl. by rewrite perform_nil.
  - cbn [forEach fmap list_fmap attempt].
    rewrite bind_run. unfold mbind at 1, M_bind. cbn [String_ lift].
    unfold host_setAttribute. rewrite host_run.
    change (data_call (heap st) element (k, v))
      with (SetAttribute element ("data-" +:+ k) (VString (to_string (heap st) v))).
    destruct (refusal _) as [e|]; [done|]. cbn [outcome].
    rewrite IH, heap_perform.
    destruct (attempt _) as [made r]. by rewrite (perform_cons _ made).
Qed.

Lemma apply_prop_run element kv st :
  apply_prop element kv st
  = match prop_calls (heap st) element kv with
    | Ok cs => let '(made, r) := attempt cs in (outcome r, perform made st)
    | Throw e => (Throw e, st)
    end.
Proof.
  destruct kv as [key value]. unfold apply_prop, prop_calls.
  destruct (startsWith "on" key && bool_decide (typeof value = "function")).
  { unfold host_addEventListener. by rewrite host_run. }
  destruct (bool_decide (key = "className")).
  { unfold host_set_className. by rewrite host_run. }
  destruct (bool_decide (key = "data")).
  2:{ cbn [andb]. unfold host_setAttribute. rewrite host_run. cbn [attempt].
      by destruct (refusal _). }
  destruct (bool_decide (typeof value = "object")) eqn:Hobj; cbn [andb].
  2:{ unfold host_setAttribute. rewrite host_run. cbn [attempt].
      by destruct (refusal _). }
  destruct value; try done; rewrite bind_run; cbn [Object_entries lift];
    try (simpl; by rewrite perform_nil); apply forEach_data_run.
Qed.

Lemma forEach_apply_prop_run element es st :
  forEach (apply_prop element) es st
  = let '(cs, r) := props_calls (heap st) element es in
    (outcome r, perform cs st).
Proof.
  revert st. induction es as [|kv es IH]; intros st.
  - simpl. by rewrite perform_nil.
  - cbn [forEach props_calls]. rewrite bind_run, apply_prop_run.
    destruct (prop_calls (heap st) element kv) as [cs|e].
    + destruct (attempt cs) as [made [e|]]; [done|]. cbn [outcome].
      rewrite IH, heap_perform.
      destruct (props_calls (heap st) element es) as [cs' r].
      by rewrite perform_app.
    + by rewrite perform_nil.
Qed.

Lemma apply_children_run element children st :
  apply_children element children st
  = (Ok tt, perform (children_calls (heap st) element children) st).
Proof.
  unfold apply_children, children_calls.
  destruct children as [c|]; [|simpl; by rewrite perform_nil].
  destruct c; simpl; try (by rewrite perform_nil); try done.
  rewrite bind_run. simpl.
  generalize (elements_of (entries (heap st) l)). intros vs. revert st.
  induction vs as [|v vs IH]; intros st.
  - simpl. by rewrite perform_nil.
  - cbn [forEach]. rewrite bind_run.
    destruct v; simpl; try apply IH.
    rewrite perform_cons. by rewrite IH.
Qed.

(** The whole builder, as the calls it makes. *)
Lemma createNativeDOMElement_run tag props children st :
  createNativeDOMElement tag props children st
  = let element := length (dom st) in
    let '(cs, r) := build_calls (heap st) element tag props children in
    (match r with None => Ok element | Some e => Throw e end, perform cs st).
Proof.
  unfold createNativeDOMElement, build_calls. rewrite bind_run.
  unfold host_createElement. rewrite bind_run, host_run. cbn [refusal].
  destruct (element_name tag) as [name|e] eqn:Hname; [|done]. cbn [outcome mret M_ret].
  set (st1 := perform _ st). rewrite bind_run. cbv zeta.
  assert (Hrest : ∀ es,
    (forEach (apply_prop (length (dom st))) es ;;
     apply_children (length (dom st)) children ;; mret (length (dom st))) st1
    = let '(cs, r) := props_calls (heap st) (length (dom st)) es in
      match r with
      | Some e => (Throw e, perform (CreateElement tag (length (dom st)) :: cs) st)
      | None =>
          (Ok (length (dom st)),
           perform (CreateElement tag (length (dom st)) :: cs
                      ++ children_calls (heap st) (length (dom st)) children) st)
      end).
  { intros es. rewrite bind_run, forEach_apply_prop_run. subst st1.
    rewrite heap_perform.
    destruct (props_calls (heap st) (length (dom st)) es) as [cs [e|]]; cbn [outcome].
    - by rewrite (perform_cons _ cs).
    - rewrite bind_run, apply_children_run, heap_perform.
      by rewrite (perform_cons _ (cs ++ _)), perform_app. }
  destruct props as [v|]; [destruct v|]; try done;
    cbn [props_entries Object_entries lift mret M_ret];
    rewrite (Hrest _); cbn [props_bag];
    by destruct (props_calls _ _ _) as [cs [e|]].
Qed.

Lemma build_calls_ok h element tag props children cs :
  build_calls h element tag props children = (cs, None) →
  ∃ name attribute_calls,
    element_name tag = Ok name
    ∧ props_calls h element (props_bag h props) = (attribute_calls, None)
    ∧ cs = CreateElement tag element :: attribute_calls
             ++ children_calls h element children.
Proof.
  unfold build_calls. destruct (element_name tag) as [name|e]; [|done].
  intros Hcs. exists name.
  assert (Hgo :
    (let '(cs, r) := props_calls h element (props_bag h props) in
     match r with
     | Some e => (CreateElement tag element :: cs, Some e)
     | None => (CreateElement tag element :: cs ++ children_calls h element children,
                None)
     end) = (cs, None) →
    ∃ attribute_calls,
      props_calls h element (props_bag h props) = (attribute_calls, None)
      ∧ cs = CreateElement tag element :: attribute_calls
               ++ children_calls h element children).
  { destruct (props_calls _ _ _) as [cs' [e|]]; [done|]. intros [= <-]. by eexists. }
  destruct props as [[]|]; try done; destruct (Hgo Hcs) as (ac & ? & ?); by exists ac.
Qed.

End TraceLemmas.
(** ** The class-name merge *)

Section Merge.
Context {H : Host} {D : Document}.

Lemma entries_insert (h : gmap loc bag) l b : entries (<[l := b]> h) l = b.
Proof. unfold entries. by rewrite lookup_insert_eq. Qed.

Lemma merge_classes_run l st :
  merge_classes (Some (VObject l)) st
  = let b := entries (heap st) l in
    let className := get_prop "className" b in
    let classes := get_prop "classes" b in
    if truthy className || truthy classes then
      match js_split_space (js_or className (VString "")) with
      | Throw e => (Throw e, st)
      | Ok l1 =>
          match js_split_space (js_or classes (VString "")) with
          | Throw e => (Throw e, st)
          | Ok l2 =>
              (Ok tt,
               with_heap
                 (<[l := delete_prop "classes"
                           (set_prop "className"
                              (VString (join " " (Set_from (filter_Boolean (l1 ++ l2)))))
                              b)]> (heap st)) st)
          end
      end
    else (Ok tt, st).
Proof.
  unfold merge_classes. rewrite bind_run. cbn [read_prop lift].
  rewrite bind_run. cbn [read_prop lift]. cbv zeta.
  destruct (truthy _ || truthy _); [|done].
  rewrite bind_run. cbn [lift].
  destruct (js_split_space (js_or (get_prop "className" _) _)) as [l1|e]; [|done].
  rewrite bind_run. cbn [lift].
  destruct (js_split_space (js_or (get_prop "classes" _) _)) as [l2|e]; [|done].
  rewrite bind_run. unfold update_props, with_heap. cbn [heap dom calls console].
  by rewrite entries_insert, insert_insert_eq.
Qed.

Lemma merge_classes_literal st : merge_classes None st = (Ok tt, st).
Proof. reflexivity. Qed.

End Merge.

(** ** Parameter resolution and errors *)

Section Resolution.
Context {H : Host} {D : Document}.

Lemma resolve_shape tag p1 p2 props children st :
  call_shape p1 p2 props children →
  resolve tag (default_null p1) (default_null p2) st = (Ok (props, children), st).
Proof.
  destruct 1;
    repeat match goal with
           | Ha : absent _ |- _ => destruct Ha
           | Hs : scalar _ |- _ => destruct Hs
           end; reflexivity.
Qed.

(** The last branch of the chain never returns. *)
Lemma invalid_branch tag p1 p2 st :
  (s1 ← JSON_stringify p1;
   s2 ← JSON_stringify p2;
   throw (A := option value * option value)
     (Error "Error"
        (invalid_parameters tag (template s1) (typeof p1)
                            (template s2) (typeof p2)))) st
  = (match JSON_stringify_fuel (S (size (heap st))) (heap st) [] p1 with
     | Throw e => Throw e
     | Ok s1 =>
         match JSON_stringify_fuel (S (size (heap st))) (heap st) [] p2 with
         | Throw e => Throw e
         | Ok s2 =>
             Throw (Error "Error"
                      (invalid_parameters tag (template s1) (typeof p1)
                                          (template s2) (typeof p2)))
         end
     end, st).
Proof.
  rewrite bind_run. cbn [JSON_stringify lift].
  destruct (JSON_stringify_fuel _ _ _ p1); [|done].
  rewrite bind_run. cbn [JSON_stringify lift].
  by destruct (JSON_stringify_fuel _ _ _ p2).
Qed.

Lemma resolve_no_shape tag p1 p2 st :
  (∀ props children, ¬ call_shape p1 p2 props children) →
  resolve tag (default_null p1) (default_null p2) st
  = (match JSON_stringify_fuel (S (size (heap st))) (heap st) [] (default_null p1) with
     | Throw e => Throw e
     | Ok s1 =>
         match JSON_stringify_fuel (S (size (heap st))) (heap st) []
                 (default_null p2) with
         | Throw e => Throw e
         | Ok s2 =>
             Throw (Error "Error"
                      (invalid_parameters tag
                         (template s1) (typeof (default_null p1))
                         (template s2) (typeof (default_null p2))))
         end
     end, st).
Proof.
  intros Hno. rewrite <- invalid_branch.
  destruct p1, p2; try reflexivity; exfalso;
    (eapply Hno; first
       [ apply shape_empty; constructor
       | apply shape_children; constructor
       | apply shape_text; constructor
       | apply shape_props; constructor
       | apply shape_props_children
       | apply shape_props_text; constructor ]).
Qed.


Lemma factory_run tag p1 p2 st :
  createNativeElementFunction tag p1 p2 st
  = match try_block tag (default_null p1) (default_null p2) st with
    | (Ok n, st') => (Ok n, st')
    | (Throw e, st') => (Throw e, diagnostic tag e st')
    end.
Proof. reflexivity. Qed.

Lemma try_block_run tag p1 p2 st :
  try_block tag p1 p2 st
  = match resolve tag p1 p2 st with
    | (Ok (props, children), st') =>
        (merge_classes props ;; createNativeDOMElement tag props children) st'
    | (Throw e, st') => (Throw e, st')
    end.
Proof.
  unfold try_block. rewrite bind_run.
  by destruct (resolve tag p1 p2 st) as [[[props children]|e] st'].
Qed.

Lemma call_shape_functional p1 p2 props children props' children' :
  call_shape p1 p2 props children → call_shape p1 p2 props' children' →
  props = props' ∧ children = children'.
Proof.
  intros Hs Hs'. destruct Hs; inversion Hs'; subst; try done;
    repeat match goal with
           | Ha : absent _ |- _ => inversion Ha; clear Ha
           | Hc : scalar _ |- _ => inversion Hc; clear Hc
           end; simplify_eq.
Qed.

(** C1. The two positional parameters are resolved by the six patterns.
    A call of one of the six shapes is the class merge and the build run on
    the (props, children) of that shape, inside the try block of the
    factory; a pair has one shape at most, so the order of the patterns
    decides nothing; every other combination makes the call raise an error,
    and no host call is made. *)
Theorem parameter_resolution tag p1 p2 st :
  (∀ props children,
     call_shape p1 p2 props children →
     resolve tag (default_null p1) (default_null p2) st = (Ok (props, children), st)
     ∧ createNativeElementFunction tag p1 p2 st
       = try_catch (merge_classes props ;; createNativeDOMElement tag props children)
                   (catch_block tag) st
     ∧ ∀ props' children',
         call_shape p1 p2 props' children' → props' = props ∧ children' = children)
  ∧ ((∀ props children, ¬ call_shape p1 p2 props children) →
     ∃ e, createNativeElementFunction tag p1 p2 st = (Throw e, diagnostic tag e st)).
Proof.
  split.
  - intros props children Hshape.
    pose proof (resolve_shape tag _ _ _ _ st Hshape) as Hres.
    split; [done|]. split.
    + unfold createNativeElementFunction, try_catch. cbv zeta.
      by rewrite try_block_run, Hres.
    + intros props' children' Hshape'.
      by destruct (call_shape_functional _ _ _ _ _ _ Hshape Hshape').
  - intros Hno. rewrite factory_run, try_block_run, (resolve_no_shape _ _ _ _ Hno).
    destruct (JSON_stringify_fuel _ _ _ (default_null p1)); [|eauto].
    destruct (JSON_stringify_fuel _ _ _ (default_null p2)); eauto.
Qed.

(** The message of the error raised for parameters that can be serialised. *)
Lemma invalid_arguments_message tag p1 p2 st s1 s2 :
  (∀ props children, ¬ call_shape p1 p2 props children) →
  JSON_stringify (default_null p1) st = (Ok s1, st) →
  JSON_stringify (default_null p2) st = (Ok s2, st) →
  let e := Error "Error"
             (invalid_parameters tag
                (template s1) (typeof (default_null p1))
                (template s2) (typeof (default_null p2))) in
  createNativeElementFunction tag p1 p2 st = (Throw e, diagnostic tag e st).
Proof.
  intros Hno H1 H2. cbv zeta.
  rewrite factory_run, try_block_run, (resolve_no_shape _ _ _ _ Hno).
  apply (f_equal fst) in H1, H2. unfold JSON_stringify, lift in H1, H2.
  cbn [fst] in H1, H2. by rewrite H1, H2.
Qed.

(** C7. An error raised in the try block, which holds the parameter
    resolution, the class merge and the build, is logged once, with the tag
    and its message, and that same error is raised to the caller. *)
Theorem errors_logged_and_rethrown tag p1 p2 st e st' :
  try_block tag (default_null p1) (default_null p2) st = (Throw e, st') →
  createNativeElementFunction tag p1 p2 st
  = (Throw e,
     State (heap st') (dom st') (calls st')
           (console st'
              ++ [("Error creating " +:+ tag +:+ " element:", message e)])).
Proof. intros Htry. by rewrite factory_run, Htry. Qed.

End Resolution.

(** ** Bags and class tokens *)

Lemma assoc_get_set_same {V} k (v : V) b : assoc_get k (assoc_set k v b) = Some v.
Proof.
  induction b as [|[k' v'] b IH]; simpl.
  - by rewrite decide_True.
  - destruct (decide (k' = k)); simpl; [by rewrite decide_True|].
    by rewrite decide_False.
Qed.

Lemma assoc_get_set_ne {V} k k' (v : V) b :
  k ≠ k' → assoc_get k (assoc_set k' v b) = assoc_get k b.
Proof.
  intros Hne. induction b as [|[k'' v''] b IH]; simpl.
  - by rewrite decide_False.
  - destruct (decide (k'' = k')) as [->|]; simpl.
    + by rewrite !decide_False.
    + destruct (decide (k'' = k)); done.
Qed.

Lemma assoc_get_filter_ne k k' (b : bag) :
  k ≠ k' → assoc_get k (delete_prop k' b) = assoc_get k b.
Proof.
  intros Hne. unfold delete_prop. induction b as [|[k'' v''] b IH]; [done|].
  rewrite filter_cons. simpl. destruct (decide (k'' ≠ k')) as [Hk|Hk]; simpl.
  - destruct (decide (k'' = k)); done.
  - apply dec_stable in Hk as ->. by rewrite decide_False.
Qed.

Lemma assoc_get_delete_same k (b : bag) : assoc_get k (delete_prop k b) = None.
Proof.
  unfold delete_prop. induction b as [|[k'' v''] b IH]; [done|].
  rewrite filter_cons. simpl. destruct (decide (k'' ≠ k)) as [Hk|Hk]; simpl; [|done].
  by rewrite decide_False.
Qed.

Lemma merged_bag_className cn cl b :
  get_prop "className" (merged_bag cn cl b) = VString (join " " (class_tokens cn cl)).
Proof.
  unfold get_prop, merged_bag, set_prop.
  by rewrite assoc_get_filter_ne, assoc_get_set_same.
Qed.

Lemma merged_bag_classes cn cl b : get_prop "classes" (merged_bag cn cl b) = VUndefined.
Proof. unfold get_prop, merged_bag. by rewrite assoc_get_delete_same. Qed.

Lemma split_class_string v s :
  class_string v = Some s →
  js_split_space (js_or v (VString "")) = Ok (split_space s)
  ∧ truthy v = negb (String.eqb s "").
Proof.
  unfold class_string, js_or. destruct v; simpl; intros Hs.
  all: try (destruct b); try (destruct (is_zero _ || is_nan _));
    try (destruct (n =? 0)%Z); simplify_eq/=; try done.
  split; [|done]. by destruct (String.eqb_spec s ""); subst.
Qed.

Lemma split_class_string_inv v l :
  js_split_space (js_or v (VString "")) = Ok l →
  ∃ s, class_string v = Some s ∧ l = split_space s.
Proof.
  unfold class_string, js_or.
  destruct v; simpl; try (intros [= <-]; by eexists);
    try (destruct b); try (destruct (is_zero _ || is_nan _));
    try (destruct (n =? 0)%Z); simpl;
    try (intros [= <-]; by eexists); try done.
  destruct (String.eqb s "") eqn:E; simpl; intros [= <-]; [|by eexists].
  apply String.eqb_eq in E as ->. by eexists.
Qed.



Lemma split_space_no_space s : Forall no_space (split_space s).
Proof.
  induction s as [|c s IH]; simpl; [by repeat constructor|].
  destruct (Ascii.eqb_spec c " "%char) as [->|Hc].
  - by constructor.
  - destruct (split_space s) as [|t ts]; [by repeat constructor|].
    inversion_clear IH. by constructor.
Qed.

Lemma split_space_token t : no_space t → split_space t = [t].
Proof.
  induction t as [|c t IH]; simpl; [done|]. intros [Hc Ht].
  destruct (Ascii.eqb_spec c " "%char); [done|]. by rewrite IH.
Qed.

Lemma split_space_app t s :
  no_space t → split_space (t +:+ " " +:+ s) = t :: split_space s.
Proof.
  induction t as [|c t IH]; simpl; [done|]. intros [Hc Ht].
  destruct (Ascii.eqb_spec c " "%char); [done|]. by rewrite IH.
Qed.

Lemma split_space_join ts :
  ts ≠ [] → Forall no_space ts → split_space (join " " ts) = ts.
Proof.
  intros Hne Hts. induction Hts as [|t ts Ht Hts IH]; [done|].
  destruct ts as [|t' ts]; simpl.
  - by apply split_space_token.
  - unfold join in IH. simpl in IH.
    change (split_space (t +:+ " " +:+ String.concat " " (t' :: ts)) = t :: t' :: ts).
    rewrite split_space_app by done. f_equal. by apply IH.
Qed.

Lemma join_empty ts : Forall (λ t, t ≠ "") ts → join " " ts = "" → ts = [].
Proof.
  intros Hts. destruct Hts as [|t ts Ht _]; [done|].
  destruct t; [done|]. unfold join. simpl. by destruct ts.
Qed.

Lemma class_tokens_facts cn cl :
  Forall no_space (class_tokens cn cl)
  ∧ Forall (λ t, t ≠ "") (class_tokens cn cl)
  ∧ NoDup (class_tokens cn cl).
Proof.
  unfold class_tokens. split_and!.
  - apply Forall_forall. intros t Ht.
    apply first_occurrences_elem_of, list_elem_of_filter in Ht as [_ Ht].
    apply elem_of_app in Ht as [Ht|Ht];
      by eapply (proj1 (Forall_forall _ _) (split_space_no_space _)).
  - apply Forall_forall. intros t Ht.
    by apply first_occurrences_elem_of, list_elem_of_filter in Ht as [? _].
  - apply first_occurrences_NoDup.
Qed.

Lemma class_tokens_again cn cl :
  join " " (class_tokens cn cl) ≠ "" →
  class_tokens (join " " (class_tokens cn cl)) "" = class_tokens cn cl.
Proof.
  destruct (class_tokens_facts cn cl) as (Hsp & Hne & Hnd).
  set (ts := class_tokens cn cl) in *. intros HJ.
  unfold class_tokens at 1. rewrite split_space_join; [|by intros ->|done].
  rewrite filter_app. simpl. rewrite app_nil_r.
  rewrite (filter_all _ ts) by done. by apply first_occurrences_id.
Qed.

Lemma assoc_set_filter_again {V} k (v : V) (P : string * V → Prop)
  `{∀ kv, Decision (P kv)} b :
  (∀ w, P (k, w)) →
  assoc_set k v (filter P (assoc_set k v b)) = filter P (assoc_set k v b).
Proof.
  intros HP. induction b as [|[k' v'] b IH]; simpl.
  - rewrite filter_cons_True by done. simpl. by rewrite decide_True.
  - destruct (decide (k' = k)) as [->|Hk].
    + rewrite filter_cons_True by done. simpl. by rewrite decide_True.
    + rewrite filter_cons. destruct (decide (P (k', v'))); [|done].
      simpl. rewrite decide_False by done. by rewrite IH.
Qed.

Lemma merged_bag_again cn cl b :
  let v := VString (join " " (class_tokens cn cl)) in
  delete_prop "classes" (set_prop "className" v (merged_bag cn cl b))
  = merged_bag cn cl b.
Proof.
  cbv zeta. unfold merged_bag at 2, delete_prop, set_prop.
  unfold merged_bag, delete_prop, set_prop.
  rewrite assoc_set_filter_again by done.
  rewrite list_filter_filter. apply list_filter_iff. intros kv. simpl. tauto.
Qed.

Lemma with_heap_id st : with_heap (heap st) st = st.
Proof. by destruct st. Qed.

Section Again.
Context {H : Host} {D : Document}.

(** A second merge of a bag that has been merged changes nothing. *)
Lemma merge_classes_again props st stm :
  merge_classes props st = (Ok tt, stm) →
  ∀ st', heap st' = heap stm → merge_classes props st' = (Ok tt, st').
Proof.
  destruct props as [v|]; [|done].
  destruct v; try done. rename l into l.
  rewrite merge_classes_run. cbv zeta.
  set (b := entries (heap st) l).
  destruct (truthy (get_prop "className" b) || truthy (get_prop "classes" b)) eqn:Ht.
  - destruct (js_split_space (js_or (get_prop "className" b) _)) as [l1|e] eqn:H1; [|done].
    destruct (js_split_space (js_or (get_prop "classes" b) _)) as [l2|e] eqn:H2; [|done].
    apply split_class_string_inv in H1 as (cn & Hcn & ->).
    apply split_class_string_inv in H2 as (cl & Hcl & ->).
    rewrite Set_from_first_occurrences. fold (class_tokens cn cl).
    fold (set_prop "className"). fold (merged_bag cn cl b).
    intros [= <-] st' Hst'. cbn [with_heap heap] in Hst'.
    assert (Hb' : entries (heap st') l = merged_bag cn cl b)
      by (by rewrite Hst', entries_insert).
    rewrite merge_classes_run. cbv zeta. rewrite Hb'.
    rewrite merged_bag_className, merged_bag_classes.
    cbn [truthy orb]. rewrite orb_false_r.
    destruct (String.eqb_spec (join " " (class_tokens cn cl)) "") as [HJ|HJ]; [done|].
    cbn [negb]. unfold js_or. cbn [truthy].
    rewrite (proj2 (String.eqb_neq _ _) HJ). cbn [negb js_split_space].
    rewrite Set_from_first_occurrences.
    change (first_occurrences (filter_Boolean (split_space (join " " (class_tokens cn cl)) ++ split_space "")))
      with (class_tokens (join " " (class_tokens cn cl)) "").
    rewrite class_tokens_again by done.
    fold (set_prop "className"). rewrite merged_bag_again.
    rewrite insert_id; [by rewrite with_heap_id|].
    rewrite Hst'. apply lookup_insert_eq.
  - intros [= <-] st' Hst'. rewrite merge_classes_run. cbv zeta.
    rewrite Hst'. fold b. by rewrite Ht.
Qed.
End Again.

Section MergeTyped.
Context {H : Host} {D : Document}.

Lemma merge_classes_strings l st cn cl :
  class_string (get_prop "className" (entries (heap st) l)) = Some cn →
  class_string (get_prop "classes" (entries (heap st) l)) = Some cl →
  cn ≠ "" ∨ cl ≠ "" →
  merge_classes (Some (VObject l)) st
  = (Ok tt, with_heap (<[l := merged_bag cn cl (entries (heap st) l)]> (heap st)) st).
Proof.
  intros Hcn Hcl Hne. rewrite merge_classes_run. cbv zeta.
  destruct (split_class_string _ _ Hcn) as [-> ->].
  destruct (split_class_string _ _ Hcl) as [-> ->].
  replace (negb (String.eqb cn "") || negb (String.eqb cl "")) with true.
  - unfold merged_bag, class_tokens. by rewrite Set_from_first_occurrences.
  - symmetry. apply orb_true_iff.
    destruct Hne as [Hne|Hne]; [left|right];
      apply negb_true_iff; by apply String.eqb_neq.
Qed.


Lemma createNativeDOMElement_performs tag props children st :
  ∃ cs, (createNativeDOMElement tag props children st).2 = perform cs st.
Proof.
  rewrite createNativeDOMElement_run. cbv zeta.
  destruct (build_calls _ _ _ _ _) as [cs r]. by exists cs.
Qed.

Lemma resolve_object tag l p2 st props children st1 :
  resolve tag (VObject l) (default_null p2) st = (Ok (props, children), st1) →
  props = Some (VObject l) ∧ st1 = st.
Proof.
  destruct p2; cbn [default_null];
    try (intros [= <- <- <-]; done);
    change (resolve tag (VObject l) ?p st)
      with ((s1 ← JSON_stringify (VObject l);
             s2 ← JSON_stringify p;
             throw (A := option value * option value)
               (Error "Error"
                 (invalid_parameters tag (template s1) (typeof (VObject l))
                                     (template s2) (typeof p)))) st);
    rewrite invalid_branch;
    destruct (JSON_stringify_fuel _ _ _ (VObject l)); try done;
    destruct (JSON_stringify_fuel _ _ _ _); done.
Qed.

End MergeTyped.

Section MergeExample.
Context `{Host}.
#[local] Existing Instance html_document.

(** C3 (amended). When each of className and classes is a string or absent
    and at least one is not empty, the factory splits both on the space
    character, keeps the non-empty tokens, className's first, without
    duplicates and in order of first occurrence, writes them joined by
    single spaces to props.className and removes props.classes, and builds
    from the bag so changed; with className "a b" and classes "b c" the
    node's class is "a b c" and it has no classes attribute. *)
Theorem class_names_merged l st cn cl :
  let b := entries (heap st) l in
  class_string (get_prop "className" b) = Some cn →
  class_string (get_prop "classes" b) = Some cl →
  cn ≠ "" ∨ cl ≠ "" →
  merge_classes (Some (VObject l)) st
    = (Ok tt, with_heap (<[l := merged_bag cn cl b]> (heap st)) st)
  ∧ get_prop "className" (merged_bag cn cl b)
    = VString (join " " (first_occurrences
                           (filter (λ t, t ≠ "")
                                   (split_space cn ++ split_space cl))))
  ∧ get_prop "classes" (merged_bag cn cl b) = VUndefined
  ∧ (∀ tag p2,
       try_block tag (VObject l) (default_null p2) st
       = match resolve tag (VObject l) (default_null p2) st with
         | (Ok (_, ch), _) =>
             createNativeDOMElement tag (Some (VObject l)) ch
               (with_heap (<[l := merged_bag cn cl b]> (heap st)) st)
         | (Throw e, st') => (Throw e, st')
         end)
  ∧ createNativeElementFunction "div" (VObject 0) VUndefined
      (store {[ 0 := [("className", VString "a b"); ("classes", VString "b c")] ]} [])
    = (Ok 0,
       State {[ 0 := [("className", VString "a b c")] ]}
             [Node "div" [("class", "a b c")] [] []]
             [CreateElement "div" 0; SetClassName 0 (VString "a b c")] []).
Proof.
  intros b Hcn Hcl Hne.
  pose proof (merge_classes_strings l st cn cl Hcn Hcl Hne) as Hmerge.
  split; [done|]. split; [apply merged_bag_className|].
  split; [apply merged_bag_classes|]. split; [|by vm_compute].
  intros tag p2. rewrite try_block_run.
  destruct (resolve tag (VObject l) (default_null p2) st)
    as [[[props ch]|e] st1] eqn:Hres; [|done].
  apply resolve_object in Hres as [-> ->].
  by rewrite bind_run, Hmerge.
Qed.

End MergeExample.

Section InPlace.
Context {H : Host} {D : Document}.

(** C9. A call that returns, made with a bag whose className or classes is
    truthy, has written the merged class names to that same bag and deleted
    its classes field; nothing else in the store changed, and the node was
    built from the caller's bag. *)
Theorem props_mutated_in_place tag l p2 st n st' :
  let b := entries (heap st) l in
  truthy (get_prop "className" b) || truthy (get_prop "classes" b) = true →
  createNativeElementFunction tag (VObject l) p2 st = (Ok n, st') →
  ∃ cn cl children,
    class_string (get_prop "className" b) = Some cn
    ∧ class_string (get_prop "classes" b) = Some cl
    ∧ heap st' = <[l := merged_bag cn cl b]> (heap st)
    ∧ get_prop "className" (entries (heap st') l)
      = VString (join " " (class_tokens cn cl))
    ∧ get_prop "classes" (entries (heap st') l) = VUndefined
    ∧ createNativeDOMElement tag (Some (VObject l)) children
        (with_heap (heap st') st) = (Ok n, st').
Proof.
  intros b Htruthy. rewrite factory_run, try_block_run. cbn [default_null].
  destruct (resolve tag (VObject l) (default_null p2) st)
    as [[[props ch]|e] st1] eqn:Hres; [|done].
  apply resolve_object in Hres as [-> ->].
  rewrite bind_run, merge_classes_run. cbv zeta. fold b. rewrite Htruthy.
  destruct (js_split_space (js_or (get_prop "className" b) _)) as [l1|e] eqn:H1; [|done].
  destruct (js_split_space (js_or (get_prop "classes" b) _)) as [l2|e] eqn:H2; [|done].
  apply split_class_string_inv in H1 as (cn & Hcn & ->).
  apply split_class_string_inv in H2 as (cl & Hcl & ->).
  rewrite Set_from_first_occurrences. fold (class_tokens cn cl).
  fold (set_prop "className"). fold (merged_bag cn cl b).
  set (st1 := with_heap _ st).
  destruct (createNativeDOMElement tag (Some (VObject l)) ch st1) as [r st2] eqn:Hb.
  destruct r as [n'|e]; [|done]. intros [= -> ->].
  destruct (createNativeDOMElement_performs tag (Some (VObject l)) ch st1) as [cs Hcs].
  rewrite Hb in Hcs. cbn [snd] in Hcs.
  assert (Hheap : heap st' = <[l := merged_bag cn cl b]> (heap st)) by by rewrite Hcs.
  exists cn, cl, ch. rewrite Hheap, entries_insert.
  split_and!; try done.
  - apply merged_bag_className.
  - apply merged_bag_classes.
Qed.

End InPlace.

(** ** The tree after a build *)


Section Tree.
Context {H : Host} {D : Document}.

Lemma fmap_unchanged (d : list node) : (λ n, n) <$> d = d.
Proof. apply list_fmap_id. Qed.

Lemma apply_call_on_element h el c d nd :
  on_element el c → el = length d →
  apply_call h c (d ++ [nd])
  = ((λ n, bystander_call n c) <$> d) ++ [node_call h nd c].
Proof.
  intros Hon ->.
  assert (Halter : ∀ f, alter f (length d) (d ++ [nd]) = d ++ [f nd]).
  { intros f. by rewrite <- (Nat.add_0_r (length d)), alter_app_r. }
  destruct c; simpl in Hon; try done; subst; cbn [apply_call node_call bystander_call];
    rewrite ?fmap_unchanged; try apply Halter.
  - by destruct listener; rewrite ?Halter.
  - by destruct (attribute_name _); rewrite ?Halter.
  - unfold move_child. rewrite fmap_app. cbn [fmap list_fmap].
    rewrite <- (length_fmap (detach c) d) at 1.
    by rewrite <- (Nat.add_0_r (length _)), alter_app_r.
Qed.

Lemma calls_on_element h el cs d nd :
  Forall (on_element el) cs → el = length d →
  foldl (λ d c, apply_call h c d) (d ++ [nd]) cs
  = ((λ n, foldl bystander_call n cs) <$> d) ++ [foldl (node_call h) nd cs].
Proof.
  intros Hcs. revert d nd. induction Hcs as [|c cs Hc _ IH]; intros d nd Hel.
  - simpl. by rewrite fmap_unchanged.
  - cbn [foldl]. rewrite (apply_call_on_element h el) by done.
    rewrite IH by (by rewrite length_fmap).
    by rewrite <- list_fmap_compose.
Qed.


Lemma node_call_retarget h el nd c : node_call h nd (retarget el c) = node_call h nd c.
Proof. by destruct c. Qed.

Lemma bystander_call_retarget el nd c :
  bystander_call nd (retarget el c) = bystander_call nd c.
Proof. by destruct c. Qed.

Lemma foldl_node_call_retarget h el nd cs :
  foldl (node_call h) nd (retarget el <$> cs) = foldl (node_call h) nd cs.
Proof.
  rewrite foldl_fmap. revert nd. induction cs as [|c cs IH]; intros nd; [done|].
  simpl. by rewrite node_call_retarget, IH.
Qed.

Lemma foldl_bystander_call_retarget el nd cs :
  foldl bystander_call nd (retarget el <$> cs) = foldl bystander_call nd cs.
Proof.
  rewrite foldl_fmap. revert nd. induction cs as [|c cs IH]; intros nd; [done|].
  simpl. by rewrite bystander_call_retarget, IH.
Qed.

Lemma prop_calls_retarget h el kv :
  prop_calls h el kv
  = match prop_calls h 0 kv with
    | Ok cs => Ok (retarget el <$> cs)
    | Throw e => Throw e
    end.
Proof.
  destruct kv as [key value]. unfold prop_calls.
  destruct (startsWith "on" key && bool_decide (typeof value = "function")); [done|].
  destruct (bool_decide (key = "className")); [done|].
  destruct (bool_decide (key = "data") && bool_decide (typeof value = "object")); [|done].
  destruct value; try done; by rewrite <- list_fmap_compose.
Qed.

Lemma refusal_retarget el c : refusal (retarget el c) = refusal c.
Proof. by destruct c. Qed.

Lemma attempt_retarget el cs :
  attempt (retarget el <$> cs) = (retarget el <$> (attempt cs).1, (attempt cs).2).
Proof.
  induction cs as [|c cs IH]; [done|]. cbn [fmap list_fmap attempt].
  rewrite refusal_retarget. destruct (refusal c); [done|].
  change (list_fmap _ _ (retarget el) cs) with (retarget el <$> cs). rewrite IH.
  by destruct (attempt cs).
Qed.

Lemma props_calls_retarget h el es :
  props_calls h el es
  = (retarget el <$> (props_calls h 0 es).1, (props_calls h 0 es).2).
Proof.
  induction es as [|kv es IH]; [done|]. cbn [props_calls].
  rewrite prop_calls_retarget, IH.
  destruct (prop_calls h 0 kv) as [cs|e]; [|done].
  rewrite attempt_retarget. destruct (attempt cs) as [made [e|]]; [done|].
  destruct (props_calls h 0 es) as [cs' r]. cbn [fst snd]. by rewrite fmap_app.
Qed.

Lemma children_calls_retarget h el children :
  children_calls h el children = retarget el <$> children_calls h 0 children.
Proof.
  destruct children as [[]|]; try done. unfold children_calls.
  by rewrite <- list_fmap_compose.
Qed.

Lemma prop_calls_on_element h el kv cs :
  prop_calls h el kv = Ok cs →
  Forall (on_element el) cs ∧ Forall is_attribute_call cs.
Proof.
  destruct kv as [key value]. unfold prop_calls.
  destruct (startsWith "on" key && bool_decide (typeof value = "function"));
    [intros [= <-]; by repeat constructor|].
  destruct (bool_decide (key = "className")); [intros [= <-]; by repeat constructor|].
  destruct (bool_decide (key = "data") && bool_decide (typeof value = "object"));
    [|intros [= <-]; by repeat constructor].
  destruct value; intros [= <-]; try (by repeat constructor);
    split; apply Forall_fmap, Forall_forall; done.
Qed.

Lemma props_calls_on_element h el es :
  Forall (on_element el) (props_calls h el es).1
  ∧ Forall is_attribute_call (props_calls h el es).1.
Proof.
  induction es as [|kv es [IH1 IH2]]; [by split; constructor|]. cbn [props_calls].
  destruct (prop_calls h el kv) as [cs|e] eqn:Hkv; [|by split; constructor].
  apply prop_calls_on_element in Hkv as [Hon Hattr].
  apply attempt_Forall in Hon, Hattr.
  destruct (attempt cs) as [made [e|]]; [done|].
  destruct (props_calls h el es) as [cs' r]. cbn [fst] in *.
  split; by apply Forall_app.
Qed.

Lemma children_calls_on_element h el children :
  Forall (on_element el) (children_calls h el children).
Proof.
  destruct children as [[]|]; try (by repeat constructor).
  unfold children_calls. by apply Forall_fmap, Forall_forall.
Qed.

(** Attribute calls leave the other nodes and the child list alone. *)
Lemma attribute_calls_bystander nd cs :
  Forall is_attribute_call cs → foldl bystander_call nd cs = nd.
Proof.
  induction 1 as [|c cs Hc _ IH]; [done|]. simpl. by destruct c.
Qed.

Lemma attribute_calls_childNodes h nd cs :
  Forall is_attribute_call cs →
  childNodes (foldl (node_call h) nd cs) = childNodes nd
  ∧ tagName (foldl (node_call h) nd cs) = tagName nd.
Proof.
  intros Hcs. revert nd. induction Hcs as [|c cs Hc _ IH]; intros nd; [done|].
  cbn [foldl]. destruct (IH (node_call h nd c)) as [-> ->].
  destruct c; try done; cbn [node_call]; try done.
  - destruct listener; try done. unfold add_listener. by case_decide.
  - by destruct (attribute_name _).
Qed.
End Tree.


Section Moves.
Context {H : Host} {D : Document}.

Lemma appended_children h el all ids nd :
  ids ⊆ all →
  Forall (child_of all) (childNodes nd) →
  Forall (child_of all) (childNodes (foldl (node_call h) nd (AppendChild el <$> ids))).
Proof.
  revert nd. induction ids as [|c ids IH]; intros nd Hsub Hnd; [done|].
  cbn [fmap list_fmap foldl]. apply IH.
  - intros x Hx. apply Hsub. by right.
  - cbn [node_call attach detach childNodes]. apply Forall_app. split.
    + apply Forall_forall. intros ch Hch. apply list_elem_of_filter in Hch as [_ Hch].
      by eapply (proj1 (Forall_forall _ _) Hnd).
    + repeat constructor. exists c. split; [done|]. apply Hsub. by left.
Qed.

Lemma detached_children el ids nd :
  foldl bystander_call nd (AppendChild el <$> ids)
  = Node (tagName nd) (attributes nd) (listeners nd)
         (filter (λ ch, Forall (λ c, ch ≠ Element c) ids) (childNodes nd)).
Proof.
  revert nd. induction ids as [|c ids IH]; intros nd.
  - simpl. destruct nd as [t a ls chs]. simpl. f_equal.
    symmetry. apply filter_all, Forall_forall. intros ch _. constructor.
  - cbn [fmap list_fmap foldl bystander_call]. rewrite IH.
    cbn [detach tagName attributes listeners childNodes]. f_equal.
    rewrite list_filter_filter. apply list_filter_iff. intros ch. simpl.
    rewrite Forall_cons. tauto.
Qed.

(** The calls of the children step, made again on another element, take
    from a node they built the child elements and nothing else. *)
Lemma children_moved h el children nd :
  childNodes nd = [] →
  foldl bystander_call
        (foldl (node_call h) nd (children_calls h el children))
        (children_calls h el children)
  = without_elements (foldl (node_call h) nd (children_calls h el children)).
Proof.
  intros Hnd. unfold without_elements.
  destruct children as [c|]; [destruct c|];
    try (simpl; rewrite Hnd; by destruct nd; simplify_eq/=).
  - simpl. unfold set_text, text_children. by case_decide.
  - simpl. unfold set_text, text_children. by case_decide.
  - unfold children_calls.
    set (ids := element_ids _).
    rewrite detached_children. f_equal.
    pose proof (appended_children h el ids ids nd (reflexivity _)) as Hall.
    rewrite Hnd in Hall. specialize (Hall (Forall_nil_2 _)).
    set (chs := childNodes _) in *. clearbody chs.
    induction Hall as [|ch chs' (c & -> & Hc) _ IH]; [done|].
    rewrite filter_cons_False, filter_cons_False; [done| |].
    + simpl. tauto.
    + intros Hf. by eapply (proj1 (Forall_forall _ _) Hf c Hc).
Qed.

End Moves.

(** ** Building twice *)

Section Twice.
Context {H : Host} {D : Document}.

Lemma resolve_cases tag p1 p2 st :
  (∃ r, ∀ st', resolve tag p1 p2 st' = (Ok r, st'))
  ∨ (∃ e, resolve tag p1 p2 st = (Throw e, st)).
Proof.
  destruct p1, p2; try (by (left; eexists; intros st'; reflexivity)).
  all: right.
  all: match goal with
        | |- ∃ e, resolve _ ?a ?b _ = _ =>
            change (resolve tag a b st)
              with ((s1 ← JSON_stringify a;
                     s2 ← JSON_stringify b;
                     throw (A := option value * option value)
                       (Error "Error"
                          (invalid_parameters tag (template s1) (typeof a)
                                              (template s2) (typeof b)))) st)
        end.
  all: rewrite invalid_branch.
  all: destruct (JSON_stringify_fuel _ _ _ _); [|by eexists].
  all: try (destruct (JSON_stringify_fuel _ _ _ _)); try by eexists.
Qed.

Lemma merge_classes_tree props st r stm :
  merge_classes props st = (r, stm) →
  dom stm = dom st ∧ calls stm = calls st ∧ console stm = console st.
Proof.
  destruct props as [v|]; [|by intros [= <- <-]].
  destruct v; try (by intros [= <- <-]).
  rewrite merge_classes_run. cbv zeta.
  destruct (truthy _ || truthy _); [|by intros [= <- <-]].
  destruct (js_split_space _); [|by intros [= <- <-]].
  destruct (js_split_space _); by intros [= <- <-].
Qed.

Lemma build_tree h tag name n es children cs (st : state) :
  h = heap st → n = length (dom st) →
  element_name tag = Ok name →
  props_calls h n es = (cs, None) →
  dom (perform (CreateElement tag n :: cs ++ children_calls h n children) st)
  = (robbed h children <$> dom st) ++ [built h name es children].
Proof.
  intros -> -> Hname Hcs. unfold perform. cbn [dom foldl apply_call]. rewrite Hname.
  pose proof (props_calls_on_element (heap st) (length (dom st)) es) as [Hon Hattr].
  rewrite Hcs in Hon, Hattr. cbn [fst] in Hon, Hattr.
  rewrite calls_on_element with (el := length (dom st)).
  2:{ apply Forall_app; split; [done|apply children_calls_on_element]. }
  2:{ done. }
  rewrite props_calls_retarget in Hcs. injection Hcs as <- Hr.
  f_equal.
  - apply list_fmap_ext. intros _ nd _. unfold robbed.
    rewrite foldl_app, (attribute_calls_bystander nd (_ <$> _)) by done.
    by rewrite children_calls_retarget, foldl_bystander_call_retarget.
  - unfold built. f_equal.
    by rewrite children_calls_retarget, <- fmap_app, foldl_node_call_retarget.
Qed.

Lemma built_robbed h name es children :
  robbed h children (built h name es children)
  = without_elements (built h name es children).
Proof.
  unfold robbed, built. rewrite foldl_app. apply children_moved.
  pose proof (props_calls_on_element h 0 es) as [_ Hattr].
  by destruct (attribute_calls_childNodes h (Node name [] [] []) _ Hattr) as [-> _].
Qed.


Lemma build_calls_again h n n' tag props children cs :
  build_calls h n tag props children = (cs, None) →
  build_calls h n' tag props children
  = (CreateElement tag n' :: (props_calls h n' (props_bag h props)).1
       ++ children_calls h n' children, None).
Proof.
  unfold build_calls. destruct (element_name tag) as [name|e]; [|done].
  assert (Hgo : ∀ es,
    (let '(cs, r) := props_calls h n es in
     match r with
     | Some e => (CreateElement tag n :: cs, Some e)
     | None => (CreateElement tag n :: cs ++ children_calls h n children, None)
     end) = (cs, None) →
    (let '(cs, r) := props_calls h n' es in
     match r with
     | Some e => (CreateElement tag n' :: cs, Some e)
     | None => (CreateElement tag n' :: cs ++ children_calls h n' children, None)
     end)
    = (CreateElement tag n' :: (props_calls h n' es).1
         ++ children_calls h n' children, None)).
  { intros es. rewrite (props_calls_retarget h n), (props_calls_retarget h n').
    by destruct (props_calls h 0 es) as [cs' [e|]]. }
  destruct props as [[]|]; try done; apply Hgo.
Qed.

Lemma build_returns tag props children st n st1 :
  createNativeDOMElement tag props children st = (Ok n, st1) →
  n = length (dom st)
  ∧ ∃ name cs,
      element_name tag = Ok name
      ∧ props_calls (heap st) n (props_bag (heap st) props) = (cs, None)
      ∧ st1 = perform (CreateElement tag n :: cs
                         ++ children_calls (heap st) n children) st
      ∧ ∀ st', heap st' = heap st →
          createNativeDOMElement tag props children st'
          = let n' := length (dom st') in
            (Ok n',
             perform (CreateElement tag n'
                        :: (props_calls (heap st) n' (props_bag (heap st) props)).1
                        ++ children_calls (heap st) n' children) st').
Proof.
  rewrite createNativeDOMElement_run. cbv zeta.
  destruct (build_calls (heap st) (length (dom st)) tag props children)
    as [cs [e|]] eqn:Hcs; [done|].
  intros [= <- <-]. split; [done|].
  destruct (build_calls_ok _ _ _ _ _ _ Hcs) as (name & ac & Hname & Hac & ->).
  exists name, ac. split_and!; try done.
  intros st' Hst'. rewrite createNativeDOMElement_run. cbv zeta.
  by rewrite Hst', (build_calls_again _ _ (length (dom st')) _ _ _ _ Hcs).
Qed.

(** C8 (amended). When a call returns a node, the same call made again
    returns another node, which right after its call is what the first was
    right after its own: same tag, attributes, listeners and child list.
    The first node keeps its attributes, listeners and text, but the host
    has moved its child elements into the second, so the two never hold the
    same child.  The second call changes nothing in the store, and logs
    nothing. *)
Theorem built_twice tag p1 p2 st n1 st1 :
  createNativeElementFunction tag p1 p2 st = (Ok n1, st1) →
  ∃ n2 st2 nd,
    createNativeElementFunction tag p1 p2 st1 = (Ok n2, st2)
    ∧ n1 ≠ n2
    ∧ dom st1 !! n1 = Some nd
    ∧ dom st2 !! n2 = Some nd
    ∧ dom st2 !! n1 = Some (without_elements nd)
    ∧ (∀ c, Element c ∉ childNodes (without_elements nd))
    ∧ heap st2 = heap st1
    ∧ console st2 = console st1.
Proof.
  rewrite !factory_run, !try_block_run.
  destruct (resolve_cases tag (default_null p1) (default_null p2) st)
    as [[[props children] Hres]|[e Hres]]; [|by rewrite Hres].
  rewrite !Hres, !bind_run.
  destruct (merge_classes props st) as [[[]|e] stm] eqn:Hmerge; [|done].
  destruct (createNativeDOMElement tag props children stm) as [[n|e] st'] eqn:Hbuild;
    [|done].
  intros [= -> ->].
  apply build_returns in Hbuild as (Hn1 & name & cs & Hname & Hcs & Hst1 & Hagain).
  assert (Hheap1 : heap st1 = heap stm) by by rewrite Hst1.
  rewrite (merge_classes_again _ _ _ Hmerge st1 Hheap1).
  rewrite (Hagain st1 Hheap1). cbv zeta.
  set (es := props_bag (heap stm) props) in *.
  set (h := heap stm) in *.
  assert (Hcs2 : props_calls h (length (dom st1)) es
                 = ((props_calls h (length (dom st1)) es).1, None)).
  { rewrite props_calls_retarget. rewrite props_calls_retarget in Hcs.
    injection Hcs as _ Hr. cbn [fst snd]. by rewrite Hr. }
  assert (Hdom1 : dom st1 = (robbed h children <$> dom stm) ++ [built h name es children]).
  { rewrite Hst1. by apply (build_tree h tag name). }
  eexists _, _, (built h name es children). split; [done|].
  assert (Hlen : length (dom st1) = S n1).
  { rewrite Hdom1, length_app, length_fmap, Hn1. simpl. lia. }
  assert (Hdom2 :
    dom (perform (CreateElement tag (length (dom st1))
                    :: (props_calls h (length (dom st1)) es).1
                    ++ children_calls h (length (dom st1)) children) st1)
    = (robbed h children <$> dom st1) ++ [built h name es children]).
  { apply (build_tree h tag name); [by rewrite Hheap1|done|done|done]. }
  split_and!.
  - lia.
  - rewrite Hdom1, Hn1, <- (length_fmap (robbed h children)).
    by rewrite list_lookup_middle.
  - rewrite Hdom2, <- (length_fmap (robbed h children) (dom st1)).
    by rewrite list_lookup_middle.
  - rewrite Hdom2, lookup_app_l by (rewrite length_fmap; lia).
    rewrite list_lookup_fmap, Hdom1, Hn1, <- (length_fmap (robbed h children)).
    rewrite list_lookup_middle by done. simpl. by rewrite built_robbed.
  - intros c Hc. unfold without_elements in Hc. cbn [childNodes] in Hc.
    by apply list_elem_of_filter in Hc as [? _].
  - done.
  - done.
Qed.

End Twice.

(** ** Properties, listeners and data attributes *)




Lemma assoc_set_fresh {V} k (v : V) b :
  k ∉ b.*1 → assoc_set k v b = b ++ [(k, v)].
Proof.
  induction b as [|[k' v'] b IH]; [done|]. cbn. intros Hk.
  rewrite decide_False by (intros ->; apply Hk; by left).
  rewrite IH; [done|]. intros ?. apply Hk. by right.
Qed.

Lemma assoc_set_names {V} k (v : V) b k' :
  k' ∈ (assoc_set k v b).*1 ↔ k' = k ∨ k' ∈ b.*1.
Proof.
  induction b as [|[k0 v0] b IH]; cbn.
  - rewrite list_elem_of_singleton. split; [by left|]. intros [?|?%elem_of_nil]; done.
  - destruct (decide (k0 = k)) as [->|Hk]; cbn; rewrite !elem_of_cons.
    + tauto.
    + rewrite IH. tauto.
Qed.

Section Properties.
Context {H : Host} {D : Document}.

(** Attribute calls on one element change that element only. *)
Lemma attribute_calls_lookup h el cs d :
  Forall (on_element el) cs → Forall is_attribute_call cs →
  foldl (λ d c, apply_call h c d) d cs !! el
  = (λ nd, foldl (node_call h) nd cs) <$> d !! el
  ∧ ∀ j, j ≠ el → foldl (λ d c, apply_call h c d) d cs !! j = d !! j.
Proof.
  intros Hon Hattr. revert d.
  induction Hon as [|c cs Hc _ IH]; intros d.
  - simpl. split; [by destruct (d !! el)|done].
  - inversion_clear Hattr as [|? ? Hc' Hcs'].
    cbn [foldl]. destruct (IH Hcs' (apply_call h c d)) as [-> Hother].
    assert (Hstep : apply_call h c d = alter (λ nd, node_call h nd c) el d).
    { destruct c; simpl in Hc, Hc'; try done; subst; try done.
      - destruct listener; try done; symmetry. all: by apply list_alter_id.
      - cbn [apply_call node_call]. destruct (attribute_name _); [done|].
        symmetry. by apply list_alter_id. }
    rewrite Hstep in Hother |- *. split.
    + rewrite list_lookup_alter_eq. by rewrite <- option_fmap_compose.
    + intros j Hj. rewrite Hother by done. by rewrite list_lookup_alter_ne.
Qed.

(** The calls of a bag are those of its entries, one after the other. *)
Lemma props_calls_app h el es1 es2 :
  props_calls h el (es1 ++ es2)
  = match props_calls h el es1 with
    | (cs1, Some e) => (cs1, Some e)
    | (cs1, None) => let '(cs2, r) := props_calls h el es2 in (cs1 ++ cs2, r)
    end.
Proof.
  induction es1 as [|kv es1 IH].
  - cbn. by destruct (props_calls h el es2).
  - cbn [app props_calls]. destruct (prop_calls h el kv) as [cs|e]; [|done].
    destruct (attempt cs) as [made [e|]]; [done|]. rewrite IH.
    destruct (props_calls h el es1) as [cs1 [e|]]; [done|].
    destruct (props_calls h el es2) as [cs2 r]. by rewrite app_assoc.
Qed.

Lemma props_calls_entry h el before kv after cs :
  props_calls h el (before ++ kv :: after) = (cs, None) →
  ∃ ckv,
    prop_calls h el kv = Ok ckv
    ∧ Forall (λ c, refusal c = None) ckv
    ∧ cs = (props_calls h el before).1 ++ ckv ++ (props_calls h el after).1
    ∧ props_calls h el (before ++ after)
      = ((props_calls h el before).1 ++ (props_calls h el after).1, None).
Proof.
  rewrite !props_calls_app. cbn [props_calls].
  destruct (props_calls h el before) as [cs1 [e|]]; [done|].
  destruct (prop_calls h el kv) as [ckv|e]; [|done].
  pose proof (attempt_made ckv) as Hmade.
  assert (Hall : (attempt ckv).2 = None → Forall (λ c, refusal c = None) ckv).
  { clear. induction ckv as [|c ckv IH]; [done|]. cbn [attempt].
    destruct (refusal c) eqn:Hc; [done|]. destruct (attempt ckv) as [made r].
    cbn [snd] in *. intros ->. constructor; [done|]. by apply IH. }
  destruct (attempt ckv) as [made [e|]]; [done|]. cbn [fst snd] in *.
  rewrite (Hmade eq_refl).
  destruct (props_calls h el after) as [cs2 [e|]]; [done|].
  intros [= <-]. exists ckv. split_and!; try done. by apply Hall.
Qed.

(** What a build that returns has done. *)
Lemma build_node tag props children st element st' :
  createNativeDOMElement tag props children st = (Ok element, st') →
  element = length (dom st)
  ∧ ∃ name,
      element_name tag = Ok name
      ∧ (props_calls (heap st) element (props_bag (heap st) props)).2 = None
      ∧ calls st'
        = calls st ++ CreateElement tag element
            :: (props_calls (heap st) element (props_bag (heap st) props)).1
            ++ children_calls (heap st) element children
      ∧ dom st'
        = (robbed (heap st) children <$> dom st)
            ++ [built (heap st) name (props_bag (heap st) props) children]
      ∧ dom st' !! element
        = Some (built (heap st) name (props_bag (heap st) props) children).
Proof.
  intros Hbuild.
  apply build_returns in Hbuild as (Hn & name & cs & Hname & Hcs & -> & _).
  split; [done|]. exists name. rewrite Hcs. split_and!; try done.
  - by apply (build_tree (heap st) tag name).
  - rewrite (build_tree (heap st) tag name element _ _ cs) by done.
    rewrite Hn, <- (length_fmap (robbed (heap st) children)).
    by rewrite list_lookup_middle.
Qed.


Lemma attribute_names_kept h nd cs a :
  a ∈ (attributes nd).*1 → a ∈ (attributes (foldl (node_call h) nd cs)).*1.
Proof.
  revert nd. induction cs as [|c cs IH]; intros nd Hin; [done|].
  cbn [foldl]. apply IH. destruct c; cbn [node_call]; try done.
  - destruct listener; try done. unfold add_listener. by case_decide.
  - cbn [store_attribute attributes]. apply assoc_set_names. by right.
  - destruct (attribute_name _); [|done].
    cbn [store_attribute attributes]. apply assoc_set_names. by right.
Qed.


Lemma listeners_same h nd1 nd2 cs :
  listeners nd1 = listeners nd2 →
  listeners (foldl (node_call h) nd1 cs) = listeners (foldl (node_call h) nd2 cs).
Proof.
  revert nd1 nd2. induction cs as [|c cs IH]; intros nd1 nd2 Heq; [done|].
  cbn [foldl]. apply IH. destruct c; cbn [node_call]; try done.
  - destruct listener; try done. unfold add_listener. rewrite <- Heq.
    case_decide; [done|]. cbn [listeners]. by rewrite Heq.
  - by destruct (attribute_name _).
Qed.

(** The node built from a bag, with the calls of one entry set apart. *)
Lemma built_entry h name before kv after children ckv :
  props_calls h 0 (before ++ kv :: after)
  = ((props_calls h 0 before).1 ++ ckv ++ (props_calls h 0 after).1, None) →
  props_calls h 0 (before ++ after)
  = ((props_calls h 0 before).1 ++ (props_calls h 0 after).1, None) →
  let nd1 := foldl (node_call h) (Node name [] [] []) (props_calls h 0 before).1 in
  let rest := (props_calls h 0 after).1 ++ children_calls h 0 children in
  built h name (before ++ kv :: after) children
  = foldl (node_call h) (foldl (node_call h) nd1 ckv) rest
  ∧ built h name (before ++ after) children = foldl (node_call h) nd1 rest.
Proof.
  intros Hwith Hwithout. cbv zeta. unfold built. rewrite Hwith, Hwithout. cbn [fst].
  by rewrite <- !app_assoc, !foldl_app.
Qed.

Lemma props_calls_entry_at h el before kv after cs :
  props_calls h el (before ++ kv :: after) = (cs, None) →
  ∃ ckv,
    prop_calls h 0 kv = Ok ckv
    ∧ Forall (λ c, refusal c = None) ckv
    ∧ cs = (props_calls h el before).1 ++ (retarget el <$> ckv)
             ++ (props_calls h el after).1
    ∧ props_calls h 0 (before ++ kv :: after)
      = ((props_calls h 0 before).1 ++ ckv ++ (props_calls h 0 after).1, None)
    ∧ props_calls h 0 (before ++ after)
      = ((props_calls h 0 before).1 ++ (props_calls h 0 after).1, None).
Proof.
  intros Hcs.
  assert (∃ cs0, props_calls h 0 (before ++ kv :: after) = (cs0, None))
    as [cs0 Hcs0].
  { rewrite props_calls_retarget in Hcs. injection Hcs as _ Hr.
    destruct (props_calls h 0 _) as [cs0 r]. cbn [snd] in Hr. subst r. by eexists. }
  apply props_calls_entry in Hcs0 as (ckv & Hkv & Hacc & -> & Hwithout).
  exists ckv. split_and!; try done.
  - rewrite props_calls_retarget in Hcs. injection Hcs as <- _.
    rewrite (props_calls_app h 0 before (kv :: after)). cbn [props_calls].
    rewrite Hkv, (attempt_accepted _ Hacc).
    rewrite (props_calls_retarget h el before), (props_calls_retarget h el after).
    rewrite props_calls_app in Hwithout.
    destruct (props_calls h 0 before) as [cs1 [e|]]; [done|].
    destruct (props_calls h 0 after) as [cs2 [e|]]; [done|].
    cbn [fst]. by rewrite !fmap_app.
  - rewrite (props_calls_app h 0 before (kv :: after)). cbn [props_calls].
    rewrite Hkv, (attempt_accepted _ Hacc).
    rewrite props_calls_app in Hwithout.
    destruct (props_calls h 0 before) as [cs1 [e|]]; [done|].
    by destruct (props_calls h 0 after) as [cs2 [e|]].
Qed.

End Properties.
Section PropertyClaims.
Context {H : Host} {D : Document}.


Lemma children_calls_attributes h children nd :
  attributes (foldl (node_call h) nd (children_calls h 0 children)) = attributes nd.
Proof.
  destruct children as [[]|]; try done. unfold children_calls.
  generalize (element_ids (elements_of (entries h l))). intros ids.
  revert nd. induction ids as [|c ids IH]; intros nd; [done|].
  cbn [fmap list_fmap foldl]. by rewrite IH.
Qed.


Lemma stored_attributes h el (kvs : list (string * value)) names nd :
  Forall2 (λ kv a, attribute_name kv.1 = Ok a) kvs names →
  NoDup ((attributes nd).*1 ++ names) →
  let nd' := foldl (node_call h) nd ((λ kv, SetAttribute el kv.1 kv.2) <$> kvs) in
  attributes nd'
  = attributes nd ++ zip_with (λ a kv, (a, to_string h kv.2)) names kvs
  ∧ listeners nd' = listeners nd ∧ childNodes nd' = childNodes nd.
Proof.
  intros Hnames. revert nd.
  induction Hnames as [|[k v] a kvs names Ha _ IH]; intros nd Hnd.
  - cbn. by rewrite app_nil_r.
  - cbn [fmap list_fmap foldl zip_with]. cbv zeta. cbn [fst snd] in *.
    assert (Hfresh : a ∉ (attributes nd).*1).
    { apply NoDup_app in Hnd as (_ & Hnd & _). intros Hin. apply (Hnd a Hin). by left. }
    destruct (IH (node_call h nd (SetAttribute el k v))) as (-> & -> & ->).
    + cbn [node_call]. rewrite Ha. cbn [store_attribute attributes].
      rewrite assoc_set_fresh by done. rewrite fmap_app, <- app_assoc. done.
    + cbn [node_call]. rewrite Ha. cbn [store_attribute attributes listeners childNodes].
      rewrite assoc_set_fresh by done. by rewrite <- app_assoc.
Qed.

Lemma prop_calls_handlers h el v :
  prop_calls h el ("handlers", v) = Ok [SetAttribute el "handlers" v].
Proof. done. Qed.

(** C10. The handlers key is not an event key.  In a build that returns,
    an entry under that key leads to one host call, setAttribute with the
    name handlers and the value of the entry; the node has an attribute
    under the name the document gives to handlers, and its listeners
    are those of a build without the entry. *)
Theorem handlers_is_an_attribute tag l children st element st' before v after :
  entries (heap st) l = before ++ ("handlers", v) :: after →
  createNativeDOMElement tag (Some (VObject l)) children st = (Ok element, st') →
  let h := heap st in
  startsWith "on" "handlers" = false
  ∧ calls st'
    = calls st ++ CreateElement tag element
        :: (props_calls h element before).1 ++ SetAttribute element "handlers" v
        :: (props_calls h element after).1 ++ children_calls h element children
  ∧ ∃ name attribute nd,
      element_name tag = Ok name
      ∧ attribute_name "handlers" = Ok attribute
      ∧ dom st' !! element = Some nd
      ∧ attribute ∈ (attributes nd).*1
      ∧ listeners nd = listeners (built h name (before ++ after) children).
Proof.
  intros Hbag Hbuild. cbv zeta. set (h := heap st) in *. split; [done|].
  destruct (build_node _ _ _ _ _ _ Hbuild) as (_ & name & Hname & Hok & Hcalls & _ & Hnd).
  fold h in Hok, Hcalls, Hnd. cbn [props_bag] in Hok, Hcalls, Hnd.
  rewrite Hbag in Hok, Hcalls, Hnd.
  destruct (props_calls h element (before ++ ("handlers", v) :: after))
    as [cs r] eqn:Hcs. cbn [fst snd] in Hok, Hcalls. subst r.
  apply props_calls_entry_at in Hcs as (ckv & Hkv & Hacc & -> & Hwith & Hwithout).
  rewrite prop_calls_handlers in Hkv. injection Hkv as <-.
  split.
  { rewrite Hcalls. do 2 f_equal. by rewrite <- !app_assoc. }
  apply Forall_cons in Hacc as [Hacc _]. cbn [refusal] in Hacc.
  destruct (attribute_name "handlers") as [attribute|e] eqn:Hattr; [|done].
  eexists name, attribute, _. split; [done|]. split; [done|]. split; [exact Hnd|].
  destruct (built_entry h name before _ after children _ Hwith Hwithout) as [-> ->].
  cbn [foldl node_call]. rewrite Hattr. split.
  - apply attribute_names_kept. cbn [store_attribute attributes].
    apply assoc_set_names. by left.
  - by apply listeners_same.
Qed.

Lemma prop_calls_data h el ld :
  prop_calls h el ("data", VObject ld) = Ok (data_call h el <$> entries h ld).
Proof. done. Qed.

Lemma data_calls_names h nested nd k v a :
  (k, v) ∈ nested → attribute_name ("data-" +:+ k) = Ok a →
  a ∈ (attributes (foldl (node_call h) nd (data_call h 0 <$> nested))).*1.
Proof.
  intros Hin Ha. apply list_elem_of_split in Hin as (n1 & n2 & ->).
  rewrite fmap_app, foldl_app. cbn [fmap list_fmap foldl].
  apply attribute_names_kept. cbn [data_call node_call fst snd]. rewrite Ha.
  cbn [store_attribute attributes]. apply assoc_set_names. by left.
Qed.

Lemma prop_calls_data_name h el kv cs v :
  prop_calls h el kv = Ok cs → SetAttribute el "data" v ∈ cs → kv = ("data", v).
Proof.
  destruct kv as [key value]. unfold prop_calls.
  destruct (startsWith "on" key && bool_decide (typeof value = "function")).
  { intros [= <-] Hin. by apply list_elem_of_singleton in Hin. }
  destruct (bool_decide (key = "className")).
  { intros [= <-] Hin. by apply list_elem_of_singleton in Hin. }
  destruct (bool_decide (key = "data") && bool_decide (typeof value = "object")).
  - destruct value; intros [= <-] Hin; try (by apply elem_of_nil in Hin);
      by apply list_elem_of_fmap in Hin as (kv & Heq & _).
  - intros [= <-] Hin. apply list_elem_of_singleton in Hin. by injection Hin as <- <-.
Qed.

Lemma props_calls_data_name h el es v :
  SetAttribute el "data" v ∈ (props_calls h el es).1 → ("data", v) ∈ es.
Proof.
  induction es as [|kv es IH]; cbn [props_calls].
  - intros Hin. by apply elem_of_nil in Hin.
  - destruct (prop_calls h el kv) as [cs|e] eqn:Hkv;
      [|intros Hin; by apply elem_of_nil in Hin].
    destruct (attempt_prefix cs) as [rest Hrest].
    destruct (attempt cs) as [made [e|]]; cbn [fst] in *.
    + intros Hin. apply elem_of_cons. left. symmetry.
      apply (prop_calls_data_name h el kv cs v Hkv).
      rewrite Hrest. apply elem_of_app. by left.
    + destruct (props_calls h el es) as [cs' r]. cbn [fst] in *.
      intros [Hin|Hin]%elem_of_app.
      * apply elem_of_cons. left. symmetry.
        apply (prop_calls_data_name h el kv cs v Hkv).
        rewrite Hrest. apply elem_of_app. by left.
      * right. by apply IH.
Qed.

(** C5. In a build that returns, a data entry that holds a mapping leads
    to one setAttribute call for each nested pair, in order, with the name
    data-<nestedKey> and the string form of the nested value, made in the
    entry's turn; none of these calls is for the name data, and no other
    call of the build is, unless the bag has a second entry under the key
    data; the node has an attribute for each nested key, and when the bag
    holds nothing else and the names are distinct its attributes are exactly
    these, each with the string form of its value.  In the sample document
    a div whose data holds id "5" and kind "x" gets the attributes data-id
    and data-kind with these values, and no attribute data. *)
Theorem data_attributes tag l ld children st element st' before after :
  entries (heap st) l = before ++ ("data", VObject ld) :: after →
  createNativeDOMElement tag (Some (VObject l)) children st = (Ok element, st') →
  let h := heap st in
  let nested := entries h ld in
  let cs := (λ kv, SetAttribute element ("data-" +:+ kv.1)
                     (VString (to_string h kv.2))) <$> nested in
  calls st'
  = calls st ++ CreateElement tag element
      :: (props_calls h element before).1 ++ cs
      ++ (props_calls h element after).1 ++ children_calls h element children
  ∧ (∀ v, SetAttribute element "data" v ∉ cs)
  ∧ (∀ v, SetAttribute element "data" v
            ∈ (props_calls h element before).1 ++ (props_calls h element after).1 →
          ("data", v) ∈ before ++ after)
  ∧ (∃ nd,
       dom st' !! element = Some nd
       ∧ (∀ k v, (k, v) ∈ nested →
            ∃ a, attribute_name ("data-" +:+ k) = Ok a ∧ a ∈ (attributes nd).*1)
       ∧ (before = [] → after = [] →
          ∀ names,
            Forall2 (λ kv a, attribute_name ("data-" +:+ kv.1) = Ok a) nested names →
            NoDup names →
            attributes nd = zip_with (λ a kv, (a, to_string h kv.2)) names nested))
  ∧ createNativeElementFunction (D := html_document) "div" (VObject 0) VUndefined
      (store {[ 0 := [("data", VObject 1)];
                1 := [("id", VString "5"); ("kind", VString "x")] ]} [])
    = (Ok 0,
       State {[ 0 := [("data", VObject 1)];
                1 := [("id", VString "5"); ("kind", VString "x")] ]}
             [Node "div" [("data-id", "5"); ("data-kind", "x")] [] []]
             [CreateElement "div" 0;
              SetAttribute 0 "data-id" (VString "5");
              SetAttribute 0 "data-kind" (VString "x")] []).
Proof.
  intros Hbag Hbuild. cbv zeta. set (h := heap st) in *.
  destruct (build_node _ _ _ _ _ _ Hbuild) as (_ & name & Hname & Hok & Hcalls & _ & Hnd).
  fold h in Hok, Hcalls, Hnd. cbn [props_bag] in Hok, Hcalls, Hnd.
  rewrite Hbag in Hok, Hcalls, Hnd.
  destruct (props_calls h element (before ++ ("data", VObject ld) :: after))
    as [cs r] eqn:Hcs. cbn [fst snd] in Hok, Hcalls. subst r.
  apply props_calls_entry_at in Hcs as (ckv & Hkv & Hacc & -> & Hwith & Hwithout).
  rewrite prop_calls_data in Hkv. injection Hkv as <-.
  split_and!; [| | | |by vm_compute].
  { rewrite Hcalls. do 2 f_equal. rewrite <- !app_assoc. f_equal.
    rewrite <- list_fmap_compose. done. }
  { intros v Hin. apply list_elem_of_fmap in Hin as (kv & Heq & _). done. }
  { intros v [Hin|Hin]%elem_of_app; apply props_calls_data_name in Hin;
      apply elem_of_app; auto. }
  eexists. split; [exact Hnd|].
  destruct (built_entry h name before _ after children _ Hwith Hwithout) as [-> _].
  split.
  - intros k v Hin.
    assert (Hk : refusal (data_call h 0 (k, v)) = None).
    { apply (proj1 (Forall_forall _ _) Hacc). apply list_elem_of_fmap. by exists (k, v). }
    cbn [data_call refusal fst] in Hk.
    destruct (attribute_name ("data-" +:+ k)) as [a|e] eqn:Ha; [|done].
    exists a. split; [done|]. apply attribute_names_kept.
    by apply (data_calls_names h _ _ k v a).
  - intros -> -> names Hnames Hnodup. cbn [props_calls fst foldl app].
    rewrite children_calls_attributes.
    assert (Hdata : data_call h 0 <$> entries h ld
                    = (λ kv, SetAttribute 0 kv.1 kv.2)
                        <$> ((λ kv : string * value,
                                ("data-" +:+ kv.1, VString (to_string h kv.2)))
                               <$> entries h ld))
      by (by rewrite <- list_fmap_compose).
    rewrite Hdata.
    destruct (stored_attributes h 0
                ((λ kv : string * value,
                    ("data-" +:+ kv.1, VString (to_string h kv.2))) <$> entries h ld)
                names (Node name [] [] [])) as (-> & _ & _).
    + by apply Forall2_fmap_l.
    + done.
    + cbn [attributes app]. clear. revert names.
      induction (entries h ld) as [|kv nested IH]; intros names; [by destruct names|].
      destruct names as [|a names]; [done|]. cbn. by rewrite IH.
Qed.

End PropertyClaims.

(** ** Children *)

Section Children.
Context {H : Host} {D : Document}.

Lemma appended_in_order h el pre ids nd :
  NoDup (pre ++ ids) →
  childNodes nd = Element <$> pre →
  childNodes (foldl (node_call h) nd (AppendChild el <$> ids))
  = Element <$> (pre ++ ids).
Proof.
  revert pre nd. induction ids as [|c ids IH]; intros pre nd Hnd Hpre.
  - simpl. by rewrite app_nil_r.
  - cbn [fmap list_fmap foldl].
    rewrite (IH (pre ++ [c])).
    + by rewrite <- app_assoc.
    + by rewrite <- app_assoc.
    + cbn [node_call attach detach childNodes]. rewrite Hpre, fmap_app.
      f_equal. apply filter_all, Forall_forall.
      intros ch Hch ->. apply list_elem_of_fmap in Hch as (c' & [= <-] & Hc).
      apply NoDup_app in Hnd as (_ & Hnd & _). eapply Hnd; [done|]. by left.
Qed.

(** C6. A build that returns has made its attribute calls first and the
    children calls after them.  A string or number sets the text content to
    its string form; a list appends, in order, the entries that are
    elements and passes over the others; children [child1, child2] leave
    the node with exactly these two children and no text. *)
Theorem children_applied_last tag props children st element st' :
  createNativeDOMElement tag props children st = (Ok element, st') →
  (∀ el st1,
     apply_children el children st1
     = (Ok tt, perform (children_calls (heap st1) el children) st1))
  ∧ ∃ attribute_calls nd,
    Forall is_attribute_call attribute_calls
    ∧ calls st'
      = calls st ++ CreateElement tag element :: attribute_calls
                 ++ children_calls (heap st) element children
    ∧ dom st' !! element = Some nd
    ∧ (∀ s, children = Some (VString s) →
         children_calls (heap st) element children = [SetTextContent element s]
         ∧ childNodes nd = text_children s)
    ∧ (∀ x, children = Some (VNumber x) →
         children_calls (heap st) element children
         = [SetTextContent element (Number_toString x)]
         ∧ childNodes nd = text_children (Number_toString x))
    ∧ (∀ l, children = Some (VArray l) →
         let ids := element_ids (elements_of (entries (heap st) l)) in
         children_calls (heap st) element children = AppendChild element <$> ids
         ∧ (NoDup ids → childNodes nd = Element <$> ids))
    ∧ createNativeElementFunction (D := html_document) "ul" (VArray 0) VUndefined
        (store {[ 0 := [("0", VElement 0); ("1", VElement 1)] ]} [li "a"; li "b"])
      = (Ok 2,
         State {[ 0 := [("0", VElement 0); ("1", VElement 1)] ]}
               [li "a"; li "b"; Node "ul" [] [] [Element 0; Element 1]]
               [CreateElement "ul" 2; AppendChild 2 0; AppendChild 2 1] []).
Proof.
  intros Hbuild. split; [intros el st1; apply apply_children_run|].
  destruct (build_node _ _ _ _ _ _ Hbuild) as (_ & name & Hname & Hok & Hcalls & _ & Hnd).
  set (es := props_bag (heap st) props) in *.
  pose proof (props_calls_on_element (heap st) element es) as [_ Hattr].
  eexists _, _. split; [exact Hattr|]. split; [exact Hcalls|]. split; [exact Hnd|].
  pose proof (props_calls_on_element (heap st) 0 es) as [_ Hattr0].
  destruct (attribute_calls_childNodes (heap st) (Node name [] [] []) _ Hattr0)
    as [Hnone _].
  unfold built. rewrite foldl_app.
  set (nd0 := foldl (node_call (heap st)) (Node name [] [] []) _) in *.
  split_and!.
  - by intros s ->.
  - by intros x ->.
  - intros l ->. cbv zeta. split; [done|]. intros Hids. unfold children_calls.
    by rewrite (appended_in_order (heap st) 0 [] _ nd0).
  - by vm_compute.
Qed.

End Children.
(** ** Recursion through the store *)

Lemma on_stack_length h seen : on_stack h seen → (length seen ≤ size h)%nat.
Proof.
  intros [Hnd Hin]. rewrite <- length_map_to_list, <- (length_fmap fst).
  apply submseteq_length, NoDup_submseteq; [done|].
  intros l [b Hb]%Hin. apply list_elem_of_fmap. exists (l, b).
  split; [done|]. by apply elem_of_map_to_list.
Qed.

Lemma on_stack_push h seen l b :
  on_stack h seen → l ∉ seen → h !! l = Some b → on_stack h (l :: seen).
Proof.
  intros [Hnd Hin] Hl Hb. split; [by constructor|].
  intros l' [->|Hl']%elem_of_cons; [by eexists|by apply Hin].
Qed.

Lemma on_stack_nil h : on_stack h [].
Proof. split; [constructor|]. intros l Hl. by apply elem_of_nil in Hl. Qed.

Lemma mapM_result_throw {A B} (f : A → result B) l e :
  mapM f l = Throw e → ∃ x, x ∈ l ∧ f x = Throw e.
Proof.
  induction l as [|x l IH]; [done|]. cbn [mapM].
  destruct (f x) as [y|e'] eqn:Hx.
  - cbn. destruct (mapM f l) as [k|e'] eqn:Hl; [done|].
    cbn. intros [= ->]. destruct (IH eq_refl) as (x' & ? & ?).
    exists x'. split; [by right|done].
  - cbn. intros [= ->]. exists x. split; [by left|done].
Qed.

Section Fuel.
Context {H : Host}.

(** The serialiser is given enough fuel: it never stops for lack of it. *)
Lemma JSON_stringify_fuel_enough fuel h seen v :
  on_stack h seen → (size h < fuel + length seen)%nat →
  JSON_stringify_fuel fuel h seen v ≠ Throw stack_overflow.
Proof.
  revert seen v. induction fuel as [|fuel IH]; intros seen v Hseen Hfuel.
  - apply on_stack_length in Hseen. simpl in Hfuel. lia.
  - assert (Hgo : ∀ l (f : string * value → result (option string)) (es := entries h l),
      l ∉ seen →
      (∀ kv, kv ∈ es → on_stack h (l :: seen) →
             (size h < fuel + length (l :: seen))%nat →
             f kv ≠ Throw stack_overflow) →
      mapM f es ≠ Throw stack_overflow).
    { intros l f es Hl Hf Hthrow.
      apply mapM_result_throw in Hthrow as (kv & Hkv & Hthrow).
      assert (∃ b, h !! l = Some b) as [b Hb].
      { unfold es, entries in Hkv.
        destruct (h !! l); [by eexists|by apply elem_of_nil in Hkv]. }
      eapply Hf; [done| |simpl; lia|done]. by eapply on_stack_push. }
    destruct v; try done; cbn [JSON_stringify_fuel];
      case_decide as Hl; try done.
    + unfold elements_of. intros Hthrow.
      destruct (mapM _ _) as [items|e] eqn:Hitems; [done|].
      cbn in Hthrow. injection Hthrow as ->.
      apply mapM_result_throw in Hitems as (x & Hx & Hthrow).
      apply list_elem_of_fmap in Hx as (kv & -> & Hkv).
      assert (∃ b, h !! l = Some b) as [b Hb].
      { unfold entries in Hkv.
        destruct (h !! l); [by eexists|by apply elem_of_nil in Hkv]. }
      eapply (IH (l :: seen)); [by eapply on_stack_push|simpl; lia|done].
    + intros Hthrow.
      destruct (mapM _ _) as [fields|e] eqn:Hfields; [done|].
      cbn in Hthrow. injection Hthrow as ->.
      revert Hfields. apply Hgo; [done|].
      intros kv _ Hstack Hlen Hthrow.
      destruct (JSON_stringify_fuel fuel h (l :: seen) kv.2) eqn:Hkv; [done|].
      cbn in Hthrow. injection Hthrow as ->. by eapply IH.
Qed.


Lemma JSON_stringify_no_overflow v st :
  (JSON_stringify v st).1 ≠ Throw stack_overflow.
Proof.
  unfold JSON_stringify, lift. cbn [fst].
  apply JSON_stringify_fuel_enough; [apply on_stack_nil|simpl; lia].
Qed.

(** More fuel does not change the string form. *)
Lemma to_string_fuel_enough fuel h seen v k :
  on_stack h seen → (size h < fuel + length seen)%nat →
  to_string_fuel (fuel + k) h seen v = to_string_fuel fuel h seen v.
Proof.
  revert seen v. induction fuel as [|fuel IH]; intros seen v Hseen Hfuel.
  - apply on_stack_length in Hseen. simpl in Hfuel. lia.
  - destruct v; try done. cbn [Nat.add to_string_fuel].
    case_decide as Hl; [done|]. f_equal.
    destruct (h !! l) as [b|] eqn:Hb.
    + apply map_ext_in. intros e _.
      destruct e; try done; apply IH;
        (by eapply on_stack_push) || (simpl; lia).
    + unfold entries. by rewrite Hb.
Qed.

Lemma to_string_more_fuel h v k :
  to_string_fuel (S (size h) + k) h [] v = to_string h v.
Proof.
  unfold to_string. apply to_string_fuel_enough; [apply on_stack_nil|simpl; lia].
Qed.

End Fuel.

(** ** The claims on sample calls

    The calls of this section are made in the sample document. *)

Section Samples.
#[local] Existing Instance html_document.

Ltac no_shape :=
  let Hs := fresh "Hs" in
  intros ? ? Hs; inversion Hs; subst;
  repeat match goal with
         | Ha : absent _ |- _ => inversion Ha; clear Ha
         | Hc : scalar _ |- _ => inversion Hc; clear Hc
         end.

(** C2. Parameters of no recognised shape raise the invalid-parameters
    error, naming the tag and each parameter's serialised value and type,
    when both parameters can be serialised, as div(42, "ignored") does.
    When serialising throws, the caller gets that error instead:
    div(42, o) with o holding itself, and div(10n), raise a TypeError whose
    message names neither the tag nor the parameters.  No node is created
    in any of these calls. *)
Theorem invalid_arguments_unserialisable :
  let o := {[ 0 := [("self", VObject 0)] ]} : gmap loc bag in
  (∀ props children, ¬ call_shape (VNumber 42) (VString "ignored") props children)
  ∧ createNativeElementFunction (H := sample_host) "div"
      (VNumber 42) (VString "ignored") (store ∅ [])
    = (Throw (Error "Error"
                (invalid_parameters "div" "42" "number"
                                    (json_quote "ignored") "string")),
       State ∅ [] []
             [("Error creating div element:",
               invalid_parameters "div" "42" "number"
                                  (json_quote "ignored") "string")])
  ∧ (∀ props children, ¬ call_shape (VNumber 42) (VObject 0) props children)
  ∧ createNativeElementFunction (H := sample_host) "div"
      (VNumber 42) (VObject 0) (store o [])
    = (Throw (TypeError "Converting circular structure to JSON"),
       State o [] []
             [("Error creating div element:",
               "Converting circular structure to JSON")])
  ∧ (∀ props children, ¬ call_shape (VBigInt 10) VUndefined props children)
  ∧ createNativeElementFunction (H := sample_host) "div"
      (VBigInt 10) VUndefined (store ∅ [])
    = (Throw (TypeError "Do not know how to serialize a BigInt"),
       State ∅ [] []
             [("Error creating div element:",
               "Do not know how to serialize a BigInt")]).
Proof.
  cbv zeta. split_and!; try no_shape; by vm_compute.
Qed.

(** Errors of the class merge and of the build reach the caller the same
    way: a className that is a number has no split method, and a data key
    that holds null cannot be enumerated. *)
Lemma errors_of_merge_and_build :
  createNativeElementFunction (H := sample_host) "div" (VObject 0) VUndefined
    (store {[ 0 := [("className", VNumber 5)] ]} [])
  = (Throw (TypeError "(intermediate value).split is not a function"),
     State {[ 0 := [("className", VNumber 5)] ]} [] []
           [("Error creating div element:",
             "(intermediate value).split is not a function")])
  ∧ createNativeElementFunction (H := sample_host) "div" (VObject 0) VUndefined
      (store {[ 0 := [("id", VString "x"); ("data", VNull)] ]} [])
    = (Throw (TypeError "Cannot convert undefined or null to object"),
       State {[ 0 := [("id", VString "x"); ("data", VNull)] ]}
             [Node "div" [("id", "x")] [] []]
             [CreateElement "div" 0; SetAttribute 0 "id" (VString "x")]
             [("Error creating div element:",
               "Cannot convert undefined or null to object")]).
Proof. split; by vm_compute. Qed.

(** C3, as stated, fails: with a tab between two class names the source
    keeps them as one token, where splitting on whitespace gives two; and a
    classes field that is set to the empty string is not removed, and ends
    up as an attribute. *)
Lemma class_names_merged_counterexample :
  (let cn := "a" +:+ tab +:+ "b" in
   let st := store {[ 0 := [("className", VString cn); ("classes", VString "b")] ]} [] in
   let st' := (createNativeElementFunction (H := sample_host) "div"
                 (VObject 0) VUndefined st).2 in
   get_prop "className" (entries (heap st') 0)
   = VString ("a" +:+ tab +:+ "b b")
   ∧ join " " (spec_class_tokens cn "b") = "a b"
   ∧ get_prop "className" (entries (heap st') 0)
     ≠ VString (join " " (spec_class_tokens cn "b")))
  ∧ (let st := store {[ 0 := [("classes", VString "")] ]} [] in
     createNativeElementFunction (H := sample_host) "div" (VObject 0) VUndefined st
     = (Ok 0,
        State {[ 0 := [("classes", VString "")] ]}
              [Node "div" [("classes", "")] [] []]
              [CreateElement "div" 0; SetAttribute 0 "classes" (VString "")] [])).
Proof.
  cbv zeta. split_and!; by vm_compute.
Qed.

(** C8, as stated, fails: the same list of children given to two calls
    ends up under the second node only. *)
Lemma built_twice_counterexample :
  let st := store {[ 0 := [("0", VElement 0)] ]} [li "item"] in
  let first := createNativeElementFunction (H := sample_host) "ul"
                 (VArray 0) VUndefined st in
  let second := createNativeElementFunction (H := sample_host) "ul"
                  (VArray 0) VUndefined first.2 in
  first.1 = Ok 1
  ∧ second.1 = Ok 2
  ∧ childNodes <$> dom first.2 !! 1 = Some [Element 0]
  ∧ childNodes <$> dom second.2 !! 1 = Some []
  ∧ childNodes <$> dom second.2 !! 2 = Some [Element 0]
  ∧ childNodes <$> dom second.2 !! 1 ≠ childNodes <$> dom second.2 !! 2.
Proof.
  cbv zeta. split_and!; by vm_compute.
Qed.

(** What the sample engine and document do with a number and with names:
    1e21 is printed with an exponent, an attribute name is stored in lower
    case, and a name with a space in it is refused, which ends the call
    with the node left as it was. *)
Lemma sample_engine_and_document :
  createNativeElementFunction (H := sample_host) "div" (VNumber 1e21) VUndefined
    (store ∅ [])
  = (Ok 0, State ∅ [Node "div" [] [] [Text "1e+21"]]
                 [CreateElement "div" 0; SetTextContent 0 "1e+21"] [])
  ∧ createNativeElementFunction (H := sample_host) "div" (VObject 0) VUndefined
      (store {[ 0 := [("tabIndex", VNumber 1)] ]} [])
    = (Ok 0, State {[ 0 := [("tabIndex", VNumber 1)] ]}
                   [Node "div" [("tabindex", "1")] [] []]
                   [CreateElement "div" 0; SetAttribute 0 "tabIndex" (VNumber 1)] [])
  ∧ (createNativeElementFunction (H := sample_host) "div" (VObject 0) VUndefined
       (store {[ 0 := [("id", VString "x"); ("a b", VNumber 1);
                       ("title", VString "t")] ]} [])).1
    = Throw (InvalidCharacterError
               "Failed to execute 'setAttribute' on 'Element': 'a b' is not a valid attribute name.")
  ∧ dom (createNativeElementFunction (H := sample_host) "div" (VObject 0) VUndefined
           (store {[ 0 := [("id", VString "x"); ("a b", VNumber 1);
                           ("title", VString "t")] ]} [])).2
    = [Node "div" [("id", "x")] [] []]
  ∧ createNativeElementFunction (H := sample_host) "" VUndefined VUndefined
      (store ∅ [])
    = (Throw (InvalidCharacterError
                "Failed to execute 'createElement' on 'Document': The tag name provided ('') is not a valid name."),
       State ∅ [] [CreateElement "" 0]
             [("Error creating  element:",
               "Failed to execute 'createElement' on 'Document': The tag name provided ('') is not a valid name.")]).
Proof. split_and!; by vm_compute. Qed.

(** The string forms of some doubles. *)
Lemma Number_toString_10_examples :
  Forall (λ p : float * string, Number_toString_10 p.1 = p.2)
    [ ((0)%float, "0"); ((-0)%float, "0"); ((1)%float, "1"); ((42)%float, "42"); ((-7)%float, "-7"); ((0.5)%float, "0.5");
      ((1.5)%float, "1.5"); ((100)%float, "100"); ((0x1.999999999999ap-4)%float, "0.1");
      ((0x1.3333333333334p-2)%float, "0.30000000000000004");
      ((1e21)%float, "1e+21"); ((1e20)%float, "100000000000000000000");
      ((0x1p+53)%float, "9007199254740992"); ((0x1p+60)%float, "1152921504606847000");
      ((0x1p-1074)%float, "5e-324"); ((0x1.fffffffffffffp+1023)%float, "1.7976931348623157e+308");
      ((0x1.0c6f7a0b5ed8dp-20)%float, "0.000001"); ((0x1.ad7f29abcaf48p-24)%float, "1e-7");
      ((nan)%float, "NaN"); ((infinity)%float, "Infinity"); ((neg_infinity)%float, "-Infinity") ].
Proof. repeat constructor. Qed.

Lemma parameter_resolution_witness :
  call_shape (VObject 0) (VString "hi") (Some (VObject 0)) (Some (VString "hi"))
  ∧ createNativeElementFunction (H := sample_host) "p" (VObject 0) (VString "hi")
      twice_sample
    = (Ok 0,
       State (heap twice_sample)
             [Node "p" [("id", "x")] [("click", 1)] [Text "hi"]]
             [CreateElement "p" 0; SetAttribute 0 "id" (VString "x");
              AddEventListener 0 "click" (VFunction 1); SetTextContent 0 "hi"] [])
  ∧ (∀ props children, ¬ call_shape (VBoolean true) VUndefined props children)
  ∧ ∃ e, createNativeElementFunction (H := sample_host) "p"
           (VBoolean true) VUndefined (store ∅ [])
         = (Throw e, diagnostic "p" e (store ∅ [])).
Proof.
  assert (Hshape : call_shape (VObject 0) (VString "hi")
                     (Some (VObject 0)) (Some (VString "hi")))
    by (apply shape_props_text; constructor).
  assert (Hnone : ∀ props children, ¬ call_shape (VBoolean true) VUndefined props children)
    by no_shape.
  split; [exact Hshape|]. split.
  - rewrite (proj1 (proj2 (proj1 (parameter_resolution (H := sample_host) "p"
                                    (VObject 0) (VString "hi") twice_sample)
                             _ _ Hshape))).
    vm_compute. reflexivity.
  - split; [exact Hnone|].
    exact (proj2 (parameter_resolution (H := sample_host) "p"
                    (VBoolean true) VUndefined (store ∅ [])) Hnone).
Defined.

Lemma class_names_merged_witness :
  class_string (get_prop "className" (entries (heap merge_sample) 0)) = Some "a b"
  ∧ class_string (get_prop "classes" (entries (heap merge_sample) 0)) = Some "b c"
  ∧ ("a b" ≠ "" ∨ "b c" ≠ "")
  ∧ merge_classes (Some (VObject 0)) merge_sample
    = (Ok tt, store {[ 0 := [("className", VString "a b c")] ]} []).
Proof.
  assert (H1 : class_string (get_prop "className" (entries (heap merge_sample) 0))
               = Some "a b") by reflexivity.
  assert (H2 : class_string (get_prop "classes" (entries (heap merge_sample) 0))
               = Some "b c") by reflexivity.
  assert (H3 : "a b" ≠ "" ∨ "b c" ≠ "") by (left; discriminate).
  split; [exact H1|]. split; [exact H2|]. split; [exact H3|].
  destruct (class_names_merged (H := sample_host) 0 merge_sample "a b" "b c" H1 H2 H3)
    as [Hmerge _].
  rewrite Hmerge. vm_compute. reflexivity.
Defined.

Lemma errors_logged_and_rethrown_witness :
  let e := Error "Error"
             (invalid_parameters "div" "42" "number" (json_quote "ignored") "string") in
  try_block (H := sample_host) "div"
    (default_null (VNumber 42)) (default_null (VString "ignored")) (store ∅ [])
  = (Throw e, store ∅ [])
  ∧ createNativeElementFunction (H := sample_host) "div"
      (VNumber 42) (VString "ignored") (store ∅ [])
    = (Throw e, diagnostic "div" e (store ∅ [])).
Proof.
  cbv zeta.
  assert (Htry : try_block (H := sample_host) "div"
            (default_null (VNumber 42)) (default_null (VString "ignored")) (store ∅ [])
          = (Throw (Error "Error"
                      (invalid_parameters "div" "42" "number"
                         (json_quote "ignored") "string")),
             store ∅ [])) by (vm_compute; reflexivity).
  split; [exact Htry|].
  exact (errors_logged_and_rethrown (H := sample_host) "div"
           (VNumber 42) (VString "ignored") (store ∅ []) _ _ Htry).
Defined.

Lemma built_twice_witness :
  let first := createNativeElementFunction (H := sample_host) "button"
                 (VObject 0) (VString "hi") twice_sample in
  first = (Ok 0, first.2)
  ∧ ∃ n2 st2 nd,
      createNativeElementFunction (H := sample_host) "button"
        (VObject 0) (VString "hi") first.2 = (Ok n2, st2)
      ∧ 0 ≠ n2
      ∧ dom first.2 !! 0 = Some nd
      ∧ dom st2 !! n2 = Some nd
      ∧ dom st2 !! 0 = Some (without_elements nd)
      ∧ (∀ c, Element c ∉ childNodes (without_elements nd))
      ∧ heap st2 = heap first.2
      ∧ console st2 = console first.2.
Proof.
  cbv zeta.
  assert (Hfirst :
    createNativeElementFunction (H := sample_host) "button"
      (VObject 0) (VString "hi") twice_sample
    = (Ok 0, (createNativeElementFunction (H := sample_host) "button"
                (VObject 0) (VString "hi") twice_sample).2))
    by (vm_compute; reflexivity).
  split; [exact Hfirst|].
  exact (built_twice (H := sample_host) "button" (VObject 0) (VString "hi")
           twice_sample 0 _ Hfirst).
Defined.

Lemma props_mutated_in_place_witness :
  let call := createNativeElementFunction (H := sample_host) "div"
                (VObject 0) VUndefined merge_sample in
  let b := entries (heap merge_sample) 0 in
  truthy (get_prop "className" b) || truthy (get_prop "classes" b) = true
  ∧ call = (Ok 0, call.2)
  ∧ ∃ cn cl children,
      class_string (get_prop "className" b) = Some cn
      ∧ class_string (get_prop "classes" b) = Some cl
      ∧ heap call.2 = <[0 := merged_bag cn cl b]> (heap merge_sample)
      ∧ get_prop "className" (entries (heap call.2) 0)
        = VString (join " " (class_tokens cn cl))
      ∧ get_prop "classes" (entries (heap call.2) 0) = VUndefined
      ∧ createNativeDOMElement (H := sample_host) "div" (Some (VObject 0)) children
          (with_heap (heap call.2) merge_sample) = (Ok 0, call.2).
Proof.
  cbv zeta.
  assert (Htruthy :
    truthy (get_prop "className" (entries (heap merge_sample) 0))
    || truthy (get_prop "classes" (entries (heap merge_sample) 0)) = true)
    by reflexivity.
  assert (Hcall :
    createNativeElementFunction (H := sample_host) "div"
      (VObject 0) VUndefined merge_sample
    = (Ok 0, (createNativeElementFunction (H := sample_host) "div"
                (VObject 0) VUndefined merge_sample).2))
    by (vm_compute; reflexivity).
  split; [exact Htruthy|]. split; [exact Hcall|].
  exact (props_mutated_in_place (H := sample_host) "div" 0 VUndefined
           merge_sample 0 _ Htruthy Hcall).
Defined.

Lemma children_applied_last_witness :
  let build := createNativeDOMElement (H := sample_host) "ul" None
                 (Some (VArray 0)) children_sample in
  build = (Ok 2, build.2)
  ∧ (∀ el st1,
       apply_children (H := sample_host) el (Some (VArray 0)) st1
       = (Ok tt,
          perform (H := sample_host)
            (children_calls (H := sample_host) (heap st1) el (Some (VArray 0))) st1))
  ∧ ∃ attribute_calls nd,
      Forall is_attribute_call attribute_calls
      ∧ calls build.2
        = calls children_sample ++ CreateElement "ul" 2 :: attribute_calls
            ++ children_calls (H := sample_host) (heap children_sample) 2
                 (Some (VArray 0))
      ∧ dom build.2 !! 2 = Some nd
      ∧ children_calls (H := sample_host) (heap children_sample) 2 (Some (VArray 0))
        = [AppendChild 2 0; AppendChild 2 1]
      ∧ childNodes nd = [Element 0; Element 1].
Proof.
  cbv zeta.
  assert (Hbuild :
    createNativeDOMElement (H := sample_host) "ul" None (Some (VArray 0))
      children_sample
    = (Ok 2, (createNativeDOMElement (H := sample_host) "ul" None
                (Some (VArray 0)) children_sample).2))
    by (vm_compute; reflexivity).
  split; [exact Hbuild|].
  destruct (children_applied_last (H := sample_host) "ul" None (Some (VArray 0))
              children_sample 2 _ Hbuild)
    as (Hstep & cs & nd & Hattr & Hcalls & Hnd & _ & _ & Hlist & _).
  split; [exact Hstep|]. exists cs, nd. split; [exact Hattr|]. split; [exact Hcalls|].
  split; [exact Hnd|].
  destruct (Hlist 0 eq_refl) as [Hcs Hchildren]. split; [exact Hcs|].
  apply Hchildren. by apply (bool_decide_unpack _).
Defined.


Lemma handlers_is_an_attribute_witness :
  let build := createNativeDOMElement (H := sample_host) "button" (Some (VObject 0))
                 None props_sample in
  let h := heap props_sample in
  let before := [("id", VString "x"); ("onKeyDown", VFunction 1)] in
  let after := [("data", VObject 1); ("onClick", VString "go")] in
  entries h 0 = before ++ ("handlers", VObject 2) :: after
  ∧ build = (Ok 0, build.2)
  ∧ startsWith "on" "handlers" = false
  ∧ calls build.2
    = calls props_sample ++ CreateElement "button" 0
        :: (props_calls (H := sample_host) h 0 before).1
        ++ SetAttribute 0 "handlers" (VObject 2)
        :: (props_calls (H := sample_host) h 0 after).1
        ++ children_calls (H := sample_host) h 0 None
  ∧ ∃ name attribute nd,
      element_name "button" = Ok name
      ∧ attribute_name "handlers" = Ok attribute
      ∧ dom build.2 !! 0 = Some nd
      ∧ attribute ∈ (attributes nd).*1
      ∧ listeners nd
        = listeners (built (H := sample_host) h name (before ++ after) None).
Proof.
  cbv zeta.
  assert (Hbag : entries (heap props_sample) 0
                 = [("id", VString "x"); ("onKeyDown", VFunction 1)]
                     ++ ("handlers", VObject 2)
                     :: [("data", VObject 1); ("onClick", VString "go")])
    by reflexivity.
  assert (Hbuild :
    createNativeDOMElement (H := sample_host) "button" (Some (VObject 0)) None
      props_sample
    = (Ok 0, (createNativeDOMElement (H := sample_host) "button" (Some (VObject 0))
                None props_sample).2))
    by (vm_compute; reflexivity).
  split; [exact Hbag|]. split; [exact Hbuild|].
  exact (handlers_is_an_attribute (H := sample_host) "button" 0 None props_sample 0 _
           _ (VObject 2) _ Hbag Hbuild).
Defined.

Lemma data_attributes_witness :
  let build := createNativeDOMElement (H := sample_host) "button" (Some (VObject 0))
                 None props_sample in
  let h := heap props_sample in
  let before := [("id", VString "x"); ("onKeyDown", VFunction 1);
                 ("handlers", VObject 2)] in
  let after := [("onClick", VString "go")] in
  entries h 0 = before ++ ("data", VObject 1) :: after
  ∧ build = (Ok 0, build.2)
  ∧ calls build.2
    = calls props_sample ++ CreateElement "button" 0
        :: (props_calls (H := sample_host) h 0 before).1
        ++ [SetAttribute 0 "data-id" (VString "5");
            SetAttribute 0 "data-kind" (VString "x")]
        ++ (props_calls (H := sample_host) h 0 after).1
        ++ children_calls (H := sample_host) h 0 None
  ∧ ∃ nd,
      dom build.2 !! 0 = Some nd
      ∧ ∀ k v, (k, v) ∈ entries h 1 →
          ∃ a, attribute_name ("data-" +:+ k) = Ok a ∧ a ∈ (attributes nd).*1.
Proof.
  cbv zeta.
  assert (Hbag : entries (heap props_sample) 0
                 = [("id", VString "x"); ("onKeyDown", VFunction 1);
                    ("handlers", VObject 2)]
                     ++ ("data", VObject 1) :: [("onClick", VString "go")])
    by reflexivity.
  assert (Hbuild :
    createNativeDOMElement (H := sample_host) "button" (Some (VObject 0)) None
      props_sample
    = (Ok 0, (createNativeDOMElement (H := sample_host) "button" (Some (VObject 0))
                None props_sample).2))
    by (vm_compute; reflexivity).
  split; [exact Hbag|]. split; [exact Hbuild|].
  destruct (data_attributes (H := sample_host) "button" 0 1 None props_sample 0 _
              _ _ Hbag Hbuild) as (Hcalls & _ & _ & (nd & Hnd & Hnames & _) & _).
  split; [exact Hcalls|]. exists nd. split; [exact Hnd|exact Hnames].
Defined.

End Samples.

(** ** The registry, and what a call leaves alone *)

Lemma reduce_lookup {V} (f : string → V) (l : list string) (acc : gmap string V) k :
  foldl (λ acc tag, <[tag := f tag]> acc) acc l !! k
  = if decide (k ∈ l) then Some (f k) else acc !! k.
Proof.
  revert acc. induction l as [|t l IH]; intros acc.
  - cbn [foldl]. destruct (decide (k ∈ [])) as [Hin|]; [by apply elem_of_nil in Hin|done].
  - cbn [foldl]. rewrite IH.
    destruct (decide (k ∈ l)) as [Hl|Hl].
    + by rewrite decide_True by (by right).
    + destruct (decide (k = t)) as [->|Hkt].
      * rewrite decide_True by (by left). apply lookup_insert_eq.
      * rewrite decide_False by (by intros [?|?]%elem_of_cons).
        by apply lookup_insert_ne.
Qed.

Section Frame.
Context {H : Host} {D : Document}.

(** X1. The registry has a factory exactly for the names of
    [htmlElements], and the factory under a name builds elements of that
    tag. *)
Theorem html_lookup tag :
  html !! tag
  = if decide (tag ∈ htmlElements) then Some (createNativeElementFunction tag)
    else None.
Proof. unfold html. by rewrite reduce_lookup, lookup_empty. Qed.

Lemma resolve_props tag p1 p2 st props children st1 :
  resolve tag p1 p2 st = (Ok (props, children), st1) →
  (props = None ∨ props = Some p1) ∧ st1 = st.
Proof.
  destruct (resolve_cases tag p1 p2 st) as [[[pr ch] Hres]|[e Hres]];
    rewrite Hres; [|done].
  intros [= -> -> <-]. split; [|done].
  specialize (Hres st).
  destruct p1, p2; simpl in Hres; try (injection Hres as <- _; by auto);
    exfalso; revert Hres;
    match goal with
    | |- resolve _ ?a ?b _ = _ → _ =>
        change (resolve tag a b st)
          with ((s1 ← JSON_stringify a;
                 s2 ← JSON_stringify b;
                 throw (A := option value * option value)
                   (Error "Error"
                      (invalid_parameters tag (template s1) (typeof a)
                                          (template s2) (typeof b)))) st)
    end;
    rewrite invalid_branch;
    destruct (JSON_stringify_fuel _ _ _ _); try done;
    destruct (JSON_stringify_fuel _ _ _ _); done.
Qed.


Lemma build_calls_shape tag props children st :
  ∃ cs,
    (createNativeDOMElement tag props children st).2
    = perform (CreateElement tag (length (dom st)) :: cs) st
    ∧ Forall (on_element (length (dom st))) cs
    ∧ (∀ e, element_name tag = Throw e → cs = []).
Proof.
  rewrite createNativeDOMElement_run. cbv zeta. unfold build_calls.
  destruct (element_name tag) as [name|e]; [|by exists []].
  pose proof (props_calls_on_element (heap st) (length (dom st))
                (props_bag (heap st) props)) as [Hon _].
  assert (Hgo : ∃ cs,
    (let '(cs, r) :=
       (let '(cs, r) := props_calls (heap st) (length (dom st))
                          (props_bag (heap st) props) in
        match r with
        | Some e => (CreateElement tag (length (dom st)) :: cs, Some e)
        | None =>
            (CreateElement tag (length (dom st)) :: cs
               ++ children_calls (heap st) (length (dom st)) children, None)
        end) in
     (match r with None => Ok (length (dom st)) | Some e => Throw e end,
      perform cs st)).2
    = perform (CreateElement tag (length (dom st)) :: cs) st
    ∧ Forall (on_element (length (dom st))) cs
    ∧ (∀ e, Ok name = Throw e → cs = [])).
  { destruct (props_calls _ _ _) as [cs [e|]]; cbn [fst] in Hon.
    - by exists cs.
    - eexists. split; [done|]. split; [|done]. apply Forall_app. split; [done|].
      apply children_calls_on_element. }
  destruct props as [[]|]; try exact Hgo; by exists [].
Qed.

Lemma merge_classes_outcome l st :
  let b := entries (heap st) l in
  merge_classes (Some (VObject l)) st = (Ok tt, st)
  ∨ (∃ e, merge_classes (Some (VObject l)) st = (Throw e, st))
  ∨ (∃ cn cl,
       class_string (get_prop "className" b) = Some cn
       ∧ class_string (get_prop "classes" b) = Some cl
       ∧ merge_classes (Some (VObject l)) st
         = (Ok tt, with_heap (<[l := merged_bag cn cl b]> (heap st)) st)).
Proof.
  intros b. rewrite merge_classes_run. cbv zeta. fold b.
  destruct (truthy (get_prop "className" b) || truthy (get_prop "classes" b));
    [|by left].
  destruct (js_split_space (js_or (get_prop "className" b) _)) as [l1|e] eqn:H1;
    [|right; left; by eexists].
  destruct (js_split_space (js_or (get_prop "classes" b) _)) as [l2|e] eqn:H2;
    [|right; left; by eexists].
  apply split_class_string_inv in H1 as (cn & Hcn & ->).
  apply split_class_string_inv in H2 as (cl & Hcl & ->).
  rewrite Set_from_first_occurrences. right. right. by exists cn, cl.
Qed.

(** Where a call leaves the state: the store as it was, or with the bag of
    the first parameter merged, and a number of host calls made. *)
Lemma try_block_state tag p1 p2 st :
  ∃ cs h',
    (try_block tag p1 p2 st).2 = perform cs (with_heap h' st)
    ∧ (cs = []
       ∨ ∃ cs', cs = CreateElement tag (length (dom st)) :: cs'
                ∧ Forall (on_element (length (dom st))) cs'
                ∧ (∀ e, element_name tag = Throw e → cs' = []))
    ∧ (h' = heap st
       ∨ ∃ l cn cl,
           p1 = VObject l
           ∧ class_string (get_prop "className" (entries (heap st) l)) = Some cn
           ∧ class_string (get_prop "classes" (entries (heap st) l)) = Some cl
           ∧ h' = <[l := merged_bag cn cl (entries (heap st) l)]> (heap st)).
Proof.
  assert (Hsame : ∃ cs h', st = perform cs (with_heap h' st) ∧ cs = [] ∧ h' = heap st)
    by (exists [], (heap st); by rewrite perform_nil, with_heap_id).
  rewrite try_block_run.
  destruct (resolve tag p1 p2 st) as [[[props children]|e] st1] eqn:Hres.
  2:{ destruct (resolve_cases tag p1 p2 st) as [[r Hr]|[e' Hr]];
        rewrite Hr in Hres; [done|]. injection Hres as <- <-.
      destruct Hsame as (cs & h' & ? & ? & ?). exists cs, h'. auto. }
  apply resolve_props in Hres as [Hprops ->]. rewrite bind_run.
  assert (Hbuild : ∀ h', ∃ cs,
    (createNativeDOMElement tag props children (with_heap h' st)).2
    = perform (CreateElement tag (length (dom st)) :: cs) (with_heap h' st)
    ∧ Forall (on_element (length (dom st))) cs
    ∧ (∀ e, element_name tag = Throw e → cs = []))
    by (intros h'; apply (build_calls_shape tag props children (with_heap h' st))).
  assert (Hplain : merge_classes props st = (Ok tt, st) →
    ∃ cs h',
      (match merge_classes props st with
       | (Ok a, st') => (λ _, createNativeDOMElement tag props children) a st'
       | (Throw e, st') => (Throw e, st')
       end).2 = perform cs (with_heap h' st)
      ∧ (cs = []
         ∨ ∃ cs', cs = CreateElement tag (length (dom st)) :: cs'
                  ∧ Forall (on_element (length (dom st))) cs'
                  ∧ (∀ e, element_name tag = Throw e → cs' = []))
      ∧ (h' = heap st ∨ ∃ l cn cl,
           p1 = VObject l
           ∧ class_string (get_prop "className" (entries (heap st) l)) = Some cn
           ∧ class_string (get_prop "classes" (entries (heap st) l)) = Some cl
           ∧ h' = <[l := merged_bag cn cl (entries (heap st) l)]> (heap st))).
  { intros ->. destruct (Hbuild (heap st)) as (cs & Hcs & Hon & Href).
    rewrite with_heap_id in Hcs. eexists _, (heap st).
    rewrite with_heap_id. split; [exact Hcs|]. split; [right; by eexists|auto]. }
  destruct Hprops as [->| ->]; [by apply Hplain|].
  destruct p1; try (by apply Hplain).
  destruct (merge_classes_outcome l st) as [Hm|[[e Hm]|(cn & cl & Hcn & Hcl & Hm)]].
  - by apply Hplain.
  - rewrite Hm. destruct Hsame as (cs & h' & ? & ? & ?). exists cs, h'. auto.
  - rewrite Hm.
    destruct (Hbuild (<[l := merged_bag cn cl (entries (heap st) l)]> (heap st)))
      as (cs & Hcs & Hon & Href).
    eexists _, _. split; [exact Hcs|]. split; [right; by eexists|].
    right. by exists l, cn, cl.
Qed.


Lemma factory_state tag p1 p2 st :
  ∃ cs h',
    console (createNativeElementFunction tag p1 p2 st).2
    = console st
      ++ match (createNativeElementFunction tag p1 p2 st).1 with
         | Ok _ => []
         | Throw e => [("Error creating " +:+ tag +:+ " element:", message e)]
         end
    ∧ heap (createNativeElementFunction tag p1 p2 st).2 = h'
    ∧ dom (createNativeElementFunction tag p1 p2 st).2
      = foldl (λ d c, apply_call h' c d) (dom st) cs
    ∧ (cs = []
       ∨ ∃ cs', cs = CreateElement tag (length (dom st)) :: cs'
                ∧ Forall (on_element (length (dom st))) cs'
                ∧ (∀ e, element_name tag = Throw e → cs' = []))
    ∧ (h' = heap st
       ∨ ∃ l cn cl,
           default_null p1 = VObject l
           ∧ class_string (get_prop "className" (entries (heap st) l)) = Some cn
           ∧ class_string (get_prop "classes" (entries (heap st) l)) = Some cl
           ∧ h' = <[l := merged_bag cn cl (entries (heap st) l)]> (heap st)).
Proof.
  destruct (try_block_state tag (default_null p1) (default_null p2) st)
    as (cs & h' & Hst & Hcs & Hh').
  exists cs, h'. rewrite factory_run.
  destruct (try_block tag (default_null p1) (default_null p2) st) as [[n|e] st'];
    cbn [fst snd] in *; subst st'; cbn [diagnostic perform with_heap heap dom console];
    by rewrite ?app_nil_r.
Qed.

(** X3. The console gets nothing from a call that returns and exactly one
    entry from a call that fails. *)
Theorem console_only_on_failure tag p1 p2 st :
  console (createNativeElementFunction tag p1 p2 st).2
  = console st
    ++ match (createNativeElementFunction tag p1 p2 st).1 with
       | Ok _ => []
       | Throw e => [("Error creating " +:+ tag +:+ " element:", message e)]
       end.
Proof. by destruct (factory_state tag p1 p2 st) as (cs & h' & ? & _). Qed.

(** X2. Whatever the outcome, a call writes to no object of the store
    other than the one passed as its first parameter. *)
Theorem store_written_at_props_only tag p1 p2 st l :
  p1 ≠ VObject l →
  heap (createNativeElementFunction tag p1 p2 st).2 !! l = heap st !! l.
Proof.
  intros Hl. destruct (factory_state tag p1 p2 st) as (cs & h' & _ & -> & _ & _ & Hh').
  destruct Hh' as [->|(l' & cn & cl & Hp1 & _ & _ & ->)]; [done|].
  apply lookup_insert_ne. intros <-. apply Hl. by destruct p1.
Qed.


Lemma bystander_calls_keep nd cs :
  let nd' := foldl bystander_call nd cs in
  tagName nd' = tagName nd ∧ attributes nd' = attributes nd
  ∧ listeners nd' = listeners nd
  ∧ (∀ ch, ch ∈ childNodes nd' → ch ∈ childNodes nd)
  ∧ (∀ s, Text s ∈ childNodes nd → Text s ∈ childNodes nd').
Proof.
  revert nd. induction cs as [|c cs IH]; intros nd; [done|].
  cbn [foldl]. destruct (IH (bystander_call nd c)) as (-> & -> & -> & Hsub & Htext).
  cbv zeta. destruct c; try done. cbn [bystander_call detach] in *.
  split_and!; try done.
  - intros ch Hch. apply Hsub in Hch. by apply list_elem_of_filter in Hch as [_ ?].
  - intros s Hs. apply Htext. by apply list_elem_of_filter.
Qed.

(** X9. Whatever the outcome of a call, every node that existed before
    it is still there with its tag, attributes and listeners; its children
    are children it had, and its text is kept. *)
Theorem existing_nodes_kept tag p1 p2 st n nd :
  dom st !! n = Some nd →
  ∃ nd',
    dom (createNativeElementFunction tag p1 p2 st).2 !! n = Some nd'
    ∧ tagName nd' = tagName nd
    ∧ attributes nd' = attributes nd
    ∧ listeners nd' = listeners nd
    ∧ (∀ ch, ch ∈ childNodes nd' → ch ∈ childNodes nd)
    ∧ (∀ s, Text s ∈ childNodes nd → Text s ∈ childNodes nd').
Proof.
  intros Hnd.
  destruct (factory_state tag p1 p2 st) as (cs & h' & _ & _ & -> & Hcs & _).
  destruct Hcs as [->|(cs' & -> & Hon & Href)].
  - exists nd. by split_and!.
  - cbn [foldl apply_call]. destruct (element_name tag) as [name|e].
    + rewrite (calls_on_element h' (length (dom st))) by done.
      rewrite lookup_app_l by (rewrite length_fmap; by eapply lookup_lt_Some).
      rewrite list_lookup_fmap, Hnd. eexists. split; [done|].
      apply bystander_calls_keep.
    + rewrite (Href e eq_refl). exists nd. by split_and!.
Qed.

End Frame.

(** ** Failures of the builder *)

Section BuilderFailures.
Context {H : Host} {D : Document}.

Lemma prop_calls_throw h el kv :
  prop_calls h el kv
  = if decide (kv = ("data", VNull)) then Throw null_entries
    else match prop_calls h el kv with
         | Ok cs => Ok cs
         | Throw _ => Ok []
         end.
Proof.
  destruct kv as [key value]. case_decide as Hkv.
  - by injection Hkv as -> ->.
  - unfold prop_calls.
    destruct (startsWith "on" key && bool_decide (typeof value = "function")); [done|].
    destruct (bool_decide (key = "className")); [done|].
    case_bool_decide as Hkey; [|done]. subst key.
    destruct value; try done.
Qed.

(** The result of a build: the exception of the document for the tag or
    for an attribute name, or the one of [Object.entries] on null, whichever
    comes first; and the new node if there is none. *)
Lemma build_result tag props children st :
  props = None ∨ (∃ l, props = Some (VObject l)) →
  (createNativeDOMElement tag props children st).1
  = match element_name tag with
    | Throw e => Throw e
    | Ok _ =>
        match (props_calls (heap st) (length (dom st))
                 (props_bag (heap st) props)).2 with
        | Some e => Throw e
        | None => Ok (length (dom st))
        end
    end.
Proof.
  intros Hprops. rewrite createNativeDOMElement_run. cbv zeta. unfold build_calls.
  destruct (element_name tag) as [name|e]; [|done].
  destruct Hprops as [->|[l ->]];
    by destruct (props_calls _ _ _) as [cs [e|]].
Qed.

End BuilderFailures.

(** In this section the document is the one that takes every name. *)
Section EveryName.
Context {H : Host}.
#[local] Existing Instance permissive.

Lemma attempt_permissive cs : attempt cs = (cs, None).
Proof.
  apply attempt_accepted, Forall_forall. intros c _. by destruct c.
Qed.

Lemma props_calls_throw h el es :
  (props_calls h el es).2
  = if decide (("data", VNull) ∈ es) then Some null_entries else None.
Proof.
  induction es as [|kv es IH].
  - cbn. by rewrite decide_False by apply not_elem_of_nil.
  - cbn [props_calls]. rewrite prop_calls_throw.
    destruct (decide (kv = ("data", VNull))) as [->|Hkv].
    + by rewrite decide_True by (by left).
    + destruct (prop_calls h el kv) as [cs|e]; rewrite attempt_permissive;
        destruct (props_calls h el es) as [cs' r]; cbn [snd] in *; rewrite IH;
        destruct (decide (("data", VNull) ∈ es)) as [Hin|Hin].
      all: try (by rewrite decide_True by (by right)).
      all: by rewrite decide_False by (by intros [?|?]%elem_of_cons).
Qed.

(** X4. With a host that accepts every name, the builder fails in one
    case only: a data property that holds null, on which [Object.entries]
    throws; any other bag is built, and the node returned is a new one. *)
Theorem build_fails_on_null_data_only tag props children st :
  props = None ∨ (∃ l, props = Some (VObject l)) →
  (createNativeDOMElement tag props children st).1
  = if decide (("data", VNull) ∈ props_bag (heap st) props)
    then Throw null_entries
    else Ok (length (dom st)).
Proof.
  intros Hprops. rewrite (build_result _ _ _ _ Hprops). cbn [element_name permissive].
  rewrite props_calls_throw. by case_decide.
Qed.

End EveryName.

(** ** Nodes built *)

Section NodesBuilt.
Context {H : Host} {D : Document}.

Lemma children_calls_keep h el children nd :
  let nd' := foldl (node_call h) nd (children_calls h el children) in
  tagName nd' = tagName nd ∧ attributes nd' = attributes nd
  ∧ listeners nd' = listeners nd.
Proof.
  destruct children as [[]|]; try done. unfold children_calls.
  generalize (element_ids (elements_of (entries h l))). intros ids.
  revert nd. induction ids as [|c ids IH]; intros nd; [done|].
  cbn [fmap list_fmap foldl]. by destruct (IH (node_call h nd (AppendChild el c))) as (-> & -> & ->).
Qed.

(** The children of a node on which a list of elements has been appended:
    what it had, without the elements of the list, then each element of the
    list once. *)
Lemma appended_once h el ids nd :
  let chs := childNodes (foldl (node_call h) nd (AppendChild el <$> ids)) in
  (NoDup (childNodes nd) → NoDup chs)
  ∧ (∀ ch, ch ∈ chs ↔ ch ∈ childNodes nd ∨ ∃ c, ch = Element c ∧ c ∈ ids).
Proof.
  revert nd. induction ids as [|c ids IH]; intros nd.
  - cbn. split; [done|]. intros ch. split; [by left|].
    intros [?|(c & _ & Hc)]; [done|by apply elem_of_nil in Hc].
  - cbn [fmap list_fmap foldl]. destruct (IH (node_call h nd (AppendChild el c)))
      as [Hnd Hin].
    cbv zeta. cbn [node_call attach detach childNodes] in *. split.
    + intros Hnodup. apply Hnd. apply NoDup_app. split_and!.
      * by apply NoDup_filter.
      * intros ch Hch Hc. apply list_elem_of_filter in Hch as [Hch _].
        by apply list_elem_of_singleton in Hc.
      * apply NoDup_singleton.
    + intros ch. rewrite Hin, elem_of_app, list_elem_of_filter, list_elem_of_singleton.
      split.
      * intros [[[_ ?]| ->]|(c' & -> & Hc')]; [by left| |].
        -- right. exists c. split; [done|by left].
        -- right. exists c'. split; [done|by right].
      * intros [Hch|(c' & -> & [->|Hc']%elem_of_cons)].
        -- destruct (decide (ch = Element c)); [left; by right|left; by left].
        -- left. by right.
        -- right. by exists c'.
Qed.

(** X10. After a build with a list of children, each element of the list
    is a child of the new node exactly once, however often the list names
    it, the new node has no other child, and no other node has any of these
    elements as a child. *)
Theorem children_under_new_node_only tag props l st element st' :
  createNativeDOMElement tag props (Some (VArray l)) st = (Ok element, st') →
  let ids := element_ids (elements_of (entries (heap st) l)) in
  (∃ nd, dom st' !! element = Some nd
         ∧ NoDup (childNodes nd)
         ∧ ∀ ch, ch ∈ childNodes nd ↔ ∃ c, ch = Element c ∧ c ∈ ids)
  ∧ (∀ n nd c, n ≠ element → dom st' !! n = Some nd → c ∈ ids →
               Element c ∉ childNodes nd).
Proof.
  intros Hbuild ids.
  destruct (build_node _ _ _ _ _ _ Hbuild) as (Hn & name & Hname & _ & _ & -> & _).
  set (es := props_bag (heap st) props) in *.
  split.
  - exists (built (heap st) name es (Some (VArray l))). split.
    { rewrite Hn, <- (length_fmap (robbed (heap st) (Some (VArray l)))).
      by rewrite list_lookup_middle. }
    pose proof (props_calls_on_element (heap st) 0 es) as [_ Hattr0].
    destruct (attribute_calls_childNodes (heap st) (Node name [] [] []) _ Hattr0)
      as [Hnone _].
    unfold built. rewrite foldl_app. unfold children_calls. fold ids.
    destruct (appended_once (heap st) 0 ids
                (foldl (node_call (heap st)) (Node name [] [] []) (props_calls (heap st) 0 es).1))
      as [Hnodup Hin].
    rewrite Hnone in Hnodup, Hin. split; [apply Hnodup; constructor|].
    intros ch. rewrite Hin. split; [|by right].
    intros [Hch|?]; [by apply elem_of_nil in Hch|done].
  - intros n nd c Hne Hnd Hc.
    assert (Hlt : n < length (robbed (heap st) (Some (VArray l)) <$> dom st)).
    { apply lookup_lt_Some in Hnd. rewrite length_app in Hnd. simpl in Hnd.
      rewrite length_fmap in *. lia. }
    rewrite lookup_app_l in Hnd by done.
    apply list_lookup_fmap_Some in Hnd as (nd0 & -> & _).
    unfold robbed, children_calls. fold ids. rewrite detached_children.
    cbn [childNodes]. intros Hin. apply list_elem_of_filter in Hin as [Hall _].
    by apply (proj1 (Forall_forall _ _) Hall c Hc).
Qed.


(** X5. A call without a properties object (no parameter, a scalar, or a
    list alone) returns whenever the document accepts the tag: a new node
    under the name the document gives it, without attributes or listeners,
    with the store and the console as they were; without parameters it has
    no children, with a scalar it has the scalar's string form as text.
    When the document refuses the tag the call throws its exception, and
    there is no new node. *)
Theorem call_without_props tag p1 p2 st :
  absent p2 →
  absent p1 ∨ scalar p1 ∨ (∃ l, p1 = VArray l) →
  match element_name tag with
  | Ok name =>
      ∃ st' chs,
        createNativeElementFunction tag p1 p2 st = (Ok (length (dom st)), st')
        ∧ heap st' = heap st
        ∧ console st' = console st
        ∧ dom st' !! length (dom st) = Some (Node name [] [] chs)
        ∧ (absent p1 → chs = [])
        ∧ (scalar p1 → chs = text_children (to_string (heap st) p1))
  | Throw e =>
      ∃ st',
        createNativeElementFunction tag p1 p2 st = (Throw e, st')
        ∧ heap st' = heap st
        ∧ dom st' = dom st
        ∧ console st'
          = console st ++ [("Error creating " +:+ tag +:+ " element:", message e)]
  end.
Proof.
  intros Hp2 Hp1.
  assert (∃ children,
    call_shape p1 p2 None children
    ∧ (absent p1 → children = None)
    ∧ (scalar p1 → children = Some p1)) as (children & Hshape & Habs & Hsc).
  { destruct Hp1 as [Hp1|[Hp1|[l ->]]].
    - exists None. split; [by constructor|]. split; [done|].
      intros Hs. destruct Hp1; inversion Hs.
    - exists (Some p1). split; [by constructor|]. split; [|done].
      intros Ha. destruct Hp1; inversion Ha.
    - exists (Some (VArray l)). split; [by constructor|].
      split; intros Hx; inversion Hx. }
  rewrite factory_run, try_block_run, (resolve_shape tag _ _ _ _ st Hshape).
  rewrite bind_run, merge_classes_literal, createNativeDOMElement_run.
  cbv zeta. unfold build_calls.
  destruct (element_name tag) as [name|e] eqn:Hname.
  2:{ eexists. split; [done|]. cbn [diagnostic perform heap dom console foldl apply_call].
      by rewrite Hname. }
  cbn [props_bag props_calls app].
  set (n := length (dom st)).
  pose proof (build_tree (heap st) tag name n [] children [] st eq_refl eq_refl Hname
                eq_refl) as Hdom. cbn [app] in Hdom.
  destruct (children_calls_keep (heap st) 0 children (Node name [] [] []))
    as (Htag & Hattrs & Hls).
  eexists _, (childNodes (built (heap st) name [] children)).
  split; [done|]. split; [done|]. split; [done|]. split.
  { rewrite Hdom. unfold n. rewrite <- (length_fmap (robbed (heap st) children)).
    rewrite list_lookup_middle by done. f_equal.
    unfold built. cbn [props_calls fst app].
    destruct (foldl _ _ _). cbn in *. by subst. }
  split.
  - intros Ha. by rewrite (Habs Ha).
  - intros Hs. rewrite (Hsc Hs). by destruct Hs.
Qed.




End NodesBuilt.

(** ** More on the class merge *)

Lemma filter_assoc_set_other {V} (P : string * V → Prop) `{∀ kv, Decision (P kv)}
  k (v : V) b :
  (∀ w, ¬ P (k, w)) → filter P (assoc_set k v b) = filter P b.
Proof.
  intros HP. induction b as [|[k' v'] b IH]; cbn [assoc_set].
  - by rewrite filter_cons_False.
  - destruct (decide (k' = k)) as [->|Hk].
    + by rewrite !filter_cons_False.
    + by rewrite !filter_cons, IH.
Qed.

Lemma merged_bag_other cn cl b :
  filter other_prop (merged_bag cn cl b) = filter other_prop b.
Proof.
  unfold merged_bag, delete_prop, set_prop. rewrite list_filter_filter.
  rewrite (list_filter_iff _ other_prop).
  - apply filter_assoc_set_other. intros w [Hw _]. by apply Hw.
  - intros kv. unfold other_prop. tauto.
Qed.

Section MergeNormal.
Context {H : Host} {D : Document}.

(** X7. The class name the merge writes back is normalised: distinct
    names, none empty, none with a space inside, joined by single spaces, so
    that splitting it on spaces gives the names back; the classes field is
    gone. *)
Theorem merged_class_name_normal l st st' :
  let b := entries (heap st) l in
  truthy (get_prop "className" b) || truthy (get_prop "classes" b) = true →
  merge_classes (Some (VObject l)) st = (Ok tt, st') →
  ∃ ts,
    get_prop "className" (entries (heap st') l) = VString (join " " ts)
    ∧ get_prop "classes" (entries (heap st') l) = VUndefined
    ∧ NoDup ts
    ∧ Forall (λ t, t ≠ "" ∧ no_space t) ts
    ∧ (ts ≠ [] → split_space (join " " ts) = ts).
Proof.
  intros b Htruthy. rewrite merge_classes_run. cbv zeta. fold b. rewrite Htruthy.
  destruct (js_split_space (js_or (get_prop "className" b) _)) as [l1|e] eqn:H1; [|done].
  destruct (js_split_space (js_or (get_prop "classes" b) _)) as [l2|e] eqn:H2; [|done].
  apply split_class_string_inv in H1 as (cn & Hcn & ->).
  apply split_class_string_inv in H2 as (cl & Hcl & ->).
  rewrite Set_from_first_occurrences. fold (class_tokens cn cl).
  fold (set_prop "className"). fold (merged_bag cn cl b).
  intros [= <-]. cbn [with_heap heap]. rewrite entries_insert.
  destruct (class_tokens_facts cn cl) as (Hsp & Hne & Hnd).
  exists (class_tokens cn cl). split_and!.
  - apply merged_bag_className.
  - apply merged_bag_classes.
  - done.
  - apply Forall_and. by split.
  - intros Hts. by apply split_space_join.
Qed.

(** X8. Merging the class names of a bag twice is the same as merging
    them once: a properties object that went through a call can be passed
    again. *)
Theorem merge_classes_idempotent props st :
  (merge_classes props ;; merge_classes props) st = merge_classes props st.
Proof.
  rewrite bind_run.
  destruct (merge_classes props st) as [[[]|e] stm] eqn:Hmerge; [|done].
  by apply (merge_classes_again _ _ _ Hmerge).
Qed.

End MergeNormal.

(** ** Calls with a properties object *)

Lemma class_string_falsy v : truthy v = false → class_string v = Some "".
Proof.
  destruct v; cbn; try done; intros Hv; try by rewrite Hv.
  apply negb_false_iff, String.eqb_eq in Hv. by subst.
Qed.

Lemma null_data_other (b b' : bag) :
  filter other_prop b' = filter other_prop b →
  ("data", VNull) ∈ b' ↔ ("data", VNull) ∈ b.
Proof.
  intros Hf.
  assert (Hin : ∀ x : bag, ("data", VNull) ∈ x ↔ ("data", VNull) ∈ filter other_prop x).
  { intros x. rewrite list_elem_of_filter. unfold other_prop. cbn. intuition done. }
  by rewrite (Hin b'), (Hin b), Hf.
Qed.

Lemma class_string_none v s :
  class_string v = None →
  truthy v = true ∧ js_split_space (js_or v s) = Throw split_error.
Proof.
  unfold js_or, class_string.
  destruct v; try done; by destruct (truthy _).
Qed.

Section WithProps.
Context {H : Host} {D : Document}.

(** X6. Whatever the outcome, a call with a properties object leaves
    every property of it other than className and classes as it was: same
    keys, same values, same order. *)
Theorem other_props_untouched tag l p2 st :
  filter other_prop
    (entries (heap (createNativeElementFunction tag (VObject l) p2 st).2) l)
  = filter other_prop (entries (heap st) l).
Proof.
  destruct (factory_state tag (VObject l) p2 st) as (cs & h' & _ & -> & _ & _ & Hh').
  destruct Hh' as [->|(l' & cn & cl & [= <-] & _ & _ & ->)]; [done|].
  rewrite entries_insert. apply merged_bag_other.
Qed.

Lemma resolve_with_props tag l p2 st :
  (valid_second p2 ∧ ∃ children,
     resolve tag (VObject l) (default_null p2) st
     = (Ok (Some (VObject l), children), st))
  ∨ (¬ valid_second p2
     ∧ ∃ e, resolve tag (VObject l) (default_null p2) st = (Throw e, st)).
Proof.
  destruct (resolve_cases tag (VObject l) (default_null p2) st)
    as [[[props children] Hres]|[e Hres]].
  - left. destruct (resolve_object tag l p2 st _ _ _ (Hres st)) as [-> _].
    split; [|by eexists].
    specialize (Hres st). unfold valid_second.
    destruct p2; try (left; by constructor);
      try (right; left; by constructor); try (right; right; by eexists);
      exfalso; revert Hres;
      match goal with
      | |- resolve _ ?a ?b _ = _ → _ =>
          change (resolve tag a b st)
            with ((s1 ← JSON_stringify a;
                   s2 ← JSON_stringify b;
                   throw (A := option value * option value)
                     (Error "Error"
                        (invalid_parameters tag (template s1) (typeof a)
                                            (template s2) (typeof b)))) st)
      end;
      rewrite invalid_branch;
      destruct (JSON_stringify_fuel _ _ _ _); try done;
      destruct (JSON_stringify_fuel _ _ _ _); done.
  - right. split; [|by eexists].
    intros [Ha|[Hs|[l' ->]]]; [destruct Ha|destruct Hs|]; by cbn in Hres.
Qed.


Lemma merge_classes_cases l st :
  let b := entries (heap st) l in
  (is_Some (class_string (get_prop "className" b))
   ∧ is_Some (class_string (get_prop "classes" b))
   ∧ ∃ stm, merge_classes (Some (VObject l)) st = (Ok tt, stm)
            ∧ dom stm = dom st
            ∧ filter other_prop (entries (heap stm) l) = filter other_prop b)
  ∨ ((class_string (get_prop "className" b) = None
      ∨ class_string (get_prop "classes" b) = None)
     ∧ merge_classes (Some (VObject l)) st = (Throw split_error, st)).
Proof.
  intros b. rewrite merge_classes_run. cbv zeta. fold b.
  destruct (class_string (get_prop "className" b)) as [cn|] eqn:Hcn.
  - destruct (split_class_string _ _ Hcn) as [-> Htcn].
    destruct (class_string (get_prop "classes" b)) as [cl|] eqn:Hcl.
    + destruct (split_class_string _ _ Hcl) as [-> Htcl]. left.
      split; [done|]. split; [done|].
      destruct (truthy _ || truthy _); [|by exists st].
      eexists. split; [done|]. split; [done|]. cbn [with_heap heap].
      rewrite entries_insert, Set_from_first_occurrences. apply merged_bag_other.
    + destruct (class_string_none _ (VString "") Hcl) as [-> ->].
      rewrite orb_true_r. right. auto.
  - destruct (class_string_none _ (VString "") Hcn) as [-> ->].
    right. auto.
Qed.

(** X13. A class field that is truthy and not a string makes the call
    fail with the TypeError of the missing split method: nothing is built,
    the store is not written, and the console gets the one diagnostic. *)
Theorem class_field_not_a_string tag l p2 st :
  let b := entries (heap st) l in
  valid_second p2 →
  class_string (get_prop "className" b) = None
  ∨ class_string (get_prop "classes" b) = None →
  createNativeElementFunction tag (VObject l) p2 st
  = (Throw split_error, diagnostic tag split_error st).
Proof.
  intros b Hp2 Hclass. rewrite factory_run, try_block_run. cbn [default_null].
  destruct (resolve_with_props tag l p2 st) as [(_ & ch & ->)|[? _]]; [|done].
  rewrite bind_run.
  destruct (merge_classes_cases l st) as [([? ?] & [? ?] & _)|[_ ->]]; [|done].
  subst b. destruct Hclass; congruence.
Qed.

End WithProps.

Section WithPropsEveryName.
Context {H : Host}.
#[local] Existing Instance permissive.

Lemma build_with_bag tag l children st :
  (createNativeDOMElement tag (Some (VObject l)) children st).1
  = if decide (("data", VNull) ∈ entries (heap st) l)
    then Throw null_entries
    else Ok (length (dom st)).
Proof.
  rewrite (build_result tag (Some (VObject l))) by (right; by eexists).
  cbn [element_name permissive props_bag]. rewrite props_calls_throw. by case_decide.
Qed.

(** X12. With a host that accepts every name, a call with a properties
    object returns a node exactly when the second parameter is absent, a
    scalar or a list, both class fields are falsy or strings, and the data
    property is not null; in every other case it throws. *)
Theorem call_with_props_returns tag l p2 st :
  let b := entries (heap st) l in
  (∃ n st', createNativeElementFunction tag (VObject l) p2 st = (Ok n, st'))
  ↔ valid_second p2
    ∧ is_Some (class_string (get_prop "className" b))
    ∧ is_Some (class_string (get_prop "classes" b))
    ∧ ("data", VNull) ∉ b.
Proof.
  intros b. rewrite factory_run, try_block_run. cbn [default_null].
  destruct (resolve_with_props tag l p2 st) as [(Hp2 & ch & ->)|(Hp2 & e & ->)].
  2:{ split; [by intros (? & ? & ?)|tauto]. }
  rewrite bind_run.
  destruct (merge_classes_cases l st)
    as [(Hcn & Hcl & stm & -> & Hdom & Hother)|[Hnone ->]].
  2:{ split; [by intros (? & ? & ?)|].
      subst b. intros (_ & [? ?] & [? ?] & _). destruct Hnone; congruence. }
  pose proof (build_with_bag tag l ch stm) as Hbuild.
  pose proof (null_data_other b (entries (heap stm) l) Hother) as Hdata. fold b in Hdata.
  destruct (createNativeDOMElement tag (Some (VObject l)) ch stm) as [r st'].
  cbn [fst] in Hbuild. subst r.
  destruct (decide (("data", VNull) ∈ entries (heap stm) l)) as [Hin|Hin].
  - split; [by intros (? & ? & ?)|]. intros (_ & _ & _ & Hb). exfalso. by apply Hb, Hdata.
  - split; [|by eexists _, _]. intros _. split_and!; try done.
    intros Hb. by apply Hin, Hdata.
Qed.

End WithPropsEveryName.

(** ** Instances

    The calls of this section are made in the sample document. *)

Section SampleInstances.
#[local] Existing Instance html_document.

Lemma existing_nodes_kept_witness :
  dom frame_sample !! 0 = Some (li "a")
  ∧ ∃ nd',
      dom (createNativeElementFunction (H := sample_host) "div"
             (VObject 0) (VArray 2) frame_sample).2 !! 0 = Some nd'
      ∧ tagName nd' = "li"
      ∧ attributes nd' = []
      ∧ listeners nd' = []
      ∧ (∀ ch, ch ∈ childNodes nd' → ch ∈ childNodes (li "a"))
      ∧ (∀ s, Text s ∈ childNodes (li "a") → Text s ∈ childNodes nd').
Proof.
  assert (Hnd : dom frame_sample !! 0 = Some (li "a")) by reflexivity.
  split; [exact Hnd|].
  exact (existing_nodes_kept (H := sample_host) "div" (VObject 0) (VArray 2)
           frame_sample 0 (li "a") Hnd).
Defined.

Lemma store_written_at_props_only_witness :
  VObject 0 ≠ VObject 1
  ∧ heap (createNativeElementFunction (H := sample_host) "div"
            (VObject 0) (VArray 2) frame_sample).2 !! 1
    = heap frame_sample !! 1.
Proof.
  assert (Hne : VObject 0 ≠ VObject 1) by discriminate.
  split; [exact Hne|].
  exact (store_written_at_props_only (H := sample_host) "div"
           (VObject 0) (VArray 2) frame_sample 1 Hne).
Defined.

Lemma children_under_new_node_only_witness :
  let build := createNativeDOMElement (H := sample_host) "ul" None
                 (Some (VArray 0)) children_sample in
  build = (Ok 2, build.2)
  ∧ (∃ nd, dom build.2 !! 2 = Some nd
           ∧ NoDup (childNodes nd)
           ∧ ∀ ch, ch ∈ childNodes nd
                   ↔ ∃ c, ch = Element c
                          ∧ c ∈ element_ids (elements_of (entries (heap children_sample) 0)))
  ∧ (∀ n nd c, n ≠ 2 → dom build.2 !! n = Some nd →
               c ∈ element_ids (elements_of (entries (heap children_sample) 0)) →
               Element c ∉ childNodes nd).
Proof.
  cbv zeta.
  assert (Hbuild :
    createNativeDOMElement (H := sample_host) "ul" None (Some (VArray 0))
      children_sample
    = (Ok 2, (createNativeDOMElement (H := sample_host) "ul" None (Some (VArray 0))
                children_sample).2))
    by (vm_compute; reflexivity).
  split; [exact Hbuild|].
  exact (children_under_new_node_only (H := sample_host) "ul" None 0
           children_sample 2 _ Hbuild).
Defined.

Lemma merged_class_name_normal_witness :
  let b := entries (heap merge_sample) 0 in
  let st' := (merge_classes (Some (VObject 0)) merge_sample).2 in
  truthy (get_prop "className" b) || truthy (get_prop "classes" b) = true
  ∧ merge_classes (Some (VObject 0)) merge_sample = (Ok tt, st')
  ∧ ∃ ts,
      get_prop "className" (entries (heap st') 0) = VString (join " " ts)
      ∧ get_prop "classes" (entries (heap st') 0) = VUndefined
      ∧ NoDup ts
      ∧ Forall (λ t, t ≠ "" ∧ no_space t) ts
      ∧ (ts ≠ [] → split_space (join " " ts) = ts).
Proof.
  cbv zeta.
  assert (Htruthy :
    truthy (get_prop "className" (entries (heap merge_sample) 0))
    || truthy (get_prop "classes" (entries (heap merge_sample) 0)) = true)
    by reflexivity.
  assert (Hmerge :
    merge_classes (Some (VObject 0)) merge_sample
    = (Ok tt, (merge_classes (Some (VObject 0)) merge_sample).2))
    by (vm_compute; reflexivity).
  split; [exact Htruthy|]. split; [exact Hmerge|].
  exact (merged_class_name_normal 0 merge_sample _ Htruthy Hmerge).
Defined.

Lemma class_field_not_a_string_witness :
  let b := entries (heap bad_class_sample) 0 in
  valid_second (VString "hi")
  ∧ (class_string (get_prop "className" b) = None
     ∨ class_string (get_prop "classes" b) = None)
  ∧ createNativeElementFunction (H := sample_host) "div" (VObject 0) (VString "hi")
      bad_class_sample
    = (Throw split_error, diagnostic "div" split_error bad_class_sample).
Proof.
  cbv zeta.
  assert (Hp2 : valid_second (VString "hi")) by (right; left; constructor).
  assert (Hclass :
    class_string (get_prop "className" (entries (heap bad_class_sample) 0)) = None
    ∨ class_string (get_prop "classes" (entries (heap bad_class_sample) 0)) = None)
    by (left; reflexivity).
  split; [exact Hp2|]. split; [exact Hclass|].
  exact (class_field_not_a_string (H := sample_host) "div" 0 (VString "hi")
           bad_class_sample Hp2 Hclass).
Defined.

Lemma call_without_props_witness :
  absent VUndefined
  ∧ (absent (VString "hi") ∨ scalar (VString "hi") ∨ ∃ l, VString "hi" = VArray l)
  ∧ ∃ st' chs,
      createNativeElementFunction (H := sample_host) "P" (VString "hi") VUndefined
        frame_sample = (Ok (length (dom frame_sample)), st')
      ∧ heap st' = heap frame_sample
      ∧ console st' = console frame_sample
      ∧ dom st' !! length (dom frame_sample) = Some (Node "p" [] [] chs)
      ∧ (absent (VString "hi") → chs = [])
      ∧ (scalar (VString "hi") →
         chs = text_children (to_string (H := sample_host) (heap frame_sample)
                                (VString "hi"))).
Proof.
  assert (Hp2 : absent VUndefined) by constructor.
  assert (Hp1 : absent (VString "hi") ∨ scalar (VString "hi")
                ∨ ∃ l, VString "hi" = VArray l) by (right; left; constructor).
  split; [exact Hp2|]. split; [exact Hp1|].
  exact (call_without_props (H := sample_host) "P" (VString "hi") VUndefined
           frame_sample Hp2 Hp1).
Defined.


End SampleInstances.

Lemma build_fails_on_null_data_only_witness :
  (Some (VObject 0) = None ∨ ∃ l, Some (VObject 0) = Some (VObject l))
  ∧ (createNativeDOMElement (H := sample_host) (D := permissive) "div"
       (Some (VObject 0)) None frame_sample).1
    = if decide (("data", VNull) ∈ props_bag (heap frame_sample) (Some (VObject 0)))
      then Throw null_entries
      else Ok (length (dom frame_sample)).
Proof.
  assert (Hprops : Some (VObject 0) = None ∨ ∃ l, Some (VObject 0) = Some (VObject l))
    by (right; exists 0; reflexivity).
  split; [exact Hprops|].
  exact (build_fails_on_null_data_only (H := sample_host) "div" (Some (VObject 0))
           None frame_sample Hprops).
Defined.
